(** * Bucket.ts: a shallow embedding of the [Bucket] class

    The class wraps an S3 client ([this.r2]) and keeps one piece of local
    state, the array [bucketPublicUrls].  Every remote method builds one
    command, awaits [this.r2.send] and maps the response.

    Conventions of the embedding:
    - a JavaScript string is a [string]; the only characters the code
      inspects are ["/"] and whole strings compared by [===];
    - a JavaScript number read from a response (status code, content length,
      date) is a [Z];
    - a field that may be [undefined] is an [option];
    - a thrown value is an [Error] record with its [name] and [message];
    - a method with effects is a computation [Eff S A] over a state [S] that
      either throws an [Error] or returns a value, and keeps the state it
      reached in both cases, as mutations done before a [throw] persist;
      an [async] method runs over the network state [Net World]. *)

From Stdlib Require Import String Ascii List ZArith Bool Lia.
Import ListNotations.
Local Open Scope string_scope.

(** ** JavaScript values and primitives used by the class *)

(** [Error]: what a rejected promise or a [throw] carries. *)
Record Error := mkError { error_name : string; error_message : string }.

(** The values [deleteObject] can return: [a && b] yields its left operand
    when that one is falsy. *)
Inductive JsValue :=
| JsUndefined
| JsNumber (n : Z)
| JsBoolean (b : bool).

Module Js.

(** [s.startsWith("/")] *)
Definition startsWith_slash (s : string) : bool :=
  match s with
  | String c _ => Ascii.eqb c "/"
  | EmptyString => false
  end.

(** The longest run of ["/"] at the start of [s] removed: what the greedy
    quantifier of [/^\/+/] consumes when it matches. *)
Fixpoint skip_slashes (s : string) : string :=
  match s with
  | String c r => if Ascii.eqb c "/" then skip_slashes r else s
  | EmptyString => EmptyString
  end.

(** [s.replace(/^\/+/, "")]: the pattern is anchored at the start and needs
    at least one ["/"]; without a match the string is returned as it is. *)
Definition replace_leading_slashes (s : string) : string :=
  match s with
  | String c r => if Ascii.eqb c "/" then skip_slashes r else s
  | EmptyString => s
  end.

(** [n] copies of ["/"]. *)
Fixpoint slashes (n : nat) : string :=
  match n with
  | O => EmptyString
  | S m => String "/" (slashes m)
  end.

(** Template literal [`${a}/${b}`]. *)
Definition slash_join (a b : string) : string := a ++ "/" ++ b.

(** [s || dflt] for a possibly undefined string: [undefined] and the empty
    string are falsy. *)
Definition or_string (s : option string) (dflt : string) : string :=
  match s with
  | Some EmptyString => dflt
  | Some v => v
  | None => dflt
  end.

(** [arr || []]: every array is truthy, the empty one too. *)
Definition or_empty {A : Type} (arr : option (list A)) : list A :=
  match arr with
  | Some l => l
  | None => []
  end.

(** [arr.includes(x)] on an array of strings. *)
Definition includes (arr : list string) (x : string) : bool :=
  existsb (String.eqb x) arr.

(** [arr.at(i)]: a negative index counts from the end; out of range is
    [undefined]. *)
Definition at_ {A : Type} (arr : list A) (i : Z) : option A :=
  let k := (if i <? 0 then Z.of_nat (length arr) + i else i)%Z in
  if (k <? 0)%Z then None else nth_error arr (Z.to_nat k).

(** A number that may be [undefined], as a value. *)
Definition of_number (n : option Z) : JsValue :=
  match n with
  | Some z => JsNumber z
  | None => JsUndefined
  end.

(** Truthiness: [undefined], [0] and [false] are falsy. *)
Definition truthy (v : JsValue) : bool :=
  match v with
  | JsUndefined => false
  | JsNumber n => negb (n =? 0)%Z
  | JsBoolean b => b
  end.

(** [a && b] *)
Definition and_ (a b : JsValue) : JsValue := if truthy a then b else a.

(** [ToNumber]: [undefined] is NaN, here [None]. *)
Definition to_number (v : JsValue) : option Z :=
  match v with
  | JsUndefined => None
  | JsNumber n => Some n
  | JsBoolean b => Some (if b then 1 else 0)%Z
  end.

(** [v >= n]; a comparison with NaN is false. *)
Definition ge (v : JsValue) (n : Z) : bool :=
  match to_number v with
  | Some m => (n <=? m)%Z
  | None => false
  end.

(** [v < n]; a comparison with NaN is false. *)
Definition lt (v : JsValue) (n : Z) : bool :=
  match to_number v with
  | Some m => (m <? n)%Z
  | None => false
  end.

(** [n === 200] on a number that may be [undefined]. *)
Definition strict_eq_number (n : option Z) (m : Z) : bool :=
  match n with
  | Some z => (z =? m)%Z
  | None => false
  end.

End Js.

(** ** The URL constructor of the platform

    [new URL(s).origin] belongs to the runtime, not to the repository: the
    class only needs to know whether the constructor throws and, if not,
    which origin it yields. *)
Class UrlApi := { url_origin : string -> option string }.

(** The [TypeError] the URL constructor throws on an unparseable input. *)
Definition invalid_url : Error :=
  {| error_name := "TypeError"; error_message := "Invalid URL" |}.

(** ** Commands and responses of the S3 client *)

(** [Tag] of ./types: a key-value pair. *)
Record Tag := mkTag { tag_Key : string; tag_Value : string }.

(** A CORS rule as the service returns it. *)
Record CORSRule := mkCORSRule {
  AllowedHeaders : option (list string);
  AllowedMethods : option (list string);
  AllowedOrigins : option (list string);
  ExposeHeaders : option (list string);
  ID : option string;
  MaxAgeSeconds : option Z
}.

(** [CORSPolicy] of ./types, as [getCorsPolicies] builds it. *)
Record CORSPolicy := mkCORSPolicy {
  allowedHeaders : option (list string);
  allowedMethods : option (list string);
  allowedOrigins : option (list string);
  exposeHeaders : option (list string);
  id : option string;
  maxAgeSeconds : option Z
}.

(** [string | Uint8Array | Buffer | Readable | ReadStream] *)
Inductive Contents :=
| TextContents (s : string)
| BinaryContents (bytes : list Byte.byte)
| StreamContents (chunks : list (list Byte.byte)).

Module PutObject.

(** The parameters of [PutObjectCommand], also those of [Upload]. *)
Record Input := mkInput {
  Bucket : string;
  Key : string;
  Body : Contents;
  ContentType : string;
  Metadata : option (list (string * string))
}.

End PutObject.

(** The commands the embedded methods build, with the fields they set. *)
Inductive Command :=
| HeadBucketCommand (Bucket : string)
| GetBucketCorsCommand (Bucket : string)
| PutObjectCommand (input : PutObject.Input)
| DeleteObjectCommand (Bucket Key : string)
| HeadObjectCommand (Bucket Key : string)
| CopyObjectCommand (Bucket CopySource Key : string)
| GetBucketTaggingCommand (Bucket : string)
| GetObjectTaggingCommand (Bucket Key : string).

(** What [send] and [Upload.done] resolve with: the fields the methods read,
    each possibly absent.  [httpStatusCode] is [$metadata.httpStatusCode]. *)
Record Response := mkResponse {
  httpStatusCode : option Z;
  ETag : option string;
  VersionId : option string;
  LastModified : option Z;
  ContentLength : option Z;
  AcceptRanges : option string;
  ContentType : option string;
  Metadata : option (list (string * string));
  TagSet : option (list Tag);
  CORSRules : option (list CORSRule)
}.

(** [Progress] of @aws-sdk/lib-storage. *)
Record Progress := mkProgress {
  loaded : option Z;
  total : option Z;
  part : option Z
}.

(** What leaves the process: a command given to [r2.send], or the parameters
    given to an [Upload] that was then run with [done()], with the progress
    listener attached to it, if any. *)
Inductive Request :=
| Sent (c : Command)
| Uploaded (params : PutObject.Input) (listener : option (Progress -> unit)).

(** The client: [r2.send(command)] and [new Upload({client, params}).done()]
    are the collaborators; each answers from the state of the remote service,
    rejecting with an error or resolving with a response. *)
Class S3Client (World : Type) := {
  r2_send : Command -> World -> (Error + Response) * World;
  Upload_done : PutObject.Input -> option (Progress -> unit) -> World ->
                (Error + Response) * World
}.

(** ** Effects *)

(** A computation over a state [S] that throws or returns. *)
Definition Eff (S A : Type) : Type := S -> (Error + A) * S.

Definition ret {S A : Type} (a : A) : Eff S A := fun s => (inr a, s).

Definition throw {S A : Type} (e : Error) : Eff S A := fun s => (inl e, s).

Definition bind {S A B : Type} (m : Eff S A) (k : A -> Eff S B) : Eff S B :=
  fun s =>
    match m s with
    | (inr a, s') => k a s'
    | (inl e, s') => (inl e, s')
    end.

(** [try { body } catch (error) { handler }] *)
Definition try_catch {S A : Type} (body : Eff S A) (handler : Error -> Eff S A)
  : Eff S A :=
  fun s =>
    match body s with
    | (inr a, s') => (inr a, s')
    | (inl e, s') => handler e s'
    end.

Definition gets {S A : Type} (f : S -> A) : Eff S A := fun s => (inr (f s), s).

Definition modify {S : Type} (f : S -> S) : Eff S unit := fun s => (inr tt, f s).

Declare Scope eff_scope.
Delimit Scope eff_scope with eff.
Notation "x <- m ;; k" := (bind m (fun x => k))
  (at level 61, m at next level, right associativity) : eff_scope.
Local Open Scope eff_scope.

(** [for (const x of l) body(x)] *)
Fixpoint for_of {S A : Type} (l : list A) (body : A -> Eff S unit) : Eff S unit :=
  match l with
  | [] => ret tt
  | x :: rest => _ <- body x ;; for_of rest body
  end.

(** The network: the state of the remote service and what was sent to it. *)
Record Net (World : Type) := mkNet { remote : World; sent : list Request }.
Arguments mkNet {World} _ _.
Arguments remote {World} _.
Arguments sent {World} _.

Definition Async (World A : Type) : Type := Eff (Net World) A.

(** [await this.r2.send(command)] *)
Definition send {World : Type} `{S3Client World} (c : Command)
  : Async World Response :=
  fun n =>
    let (outcome, w) := r2_send c (remote n) in
    (outcome, mkNet w (sent n ++ [Sent c])).

(** [await upload.done()] for an [Upload] built from [params]. *)
Definition upload_done {World : Type} `{S3Client World}
  (params : PutObject.Input) (listener : option (Progress -> unit))
  : Async World Response :=
  fun n =>
    let (outcome, w) := Upload_done params listener (remote n) in
    (outcome, mkNet w (sent n ++ [Uploaded params listener])).

(** ** The class *)

(** The fields of a [Bucket] other than the client [r2], which is the
    [S3Client] instance. *)
Record Bucket := mkBucket {
  name : string;
  endpoint : string;
  uri : string;
  bucketPublicUrls : list string
}.

(** [UploadFileResponse] of ./types, as [upload] builds it; [publicUrl] is
    [null] when no public URL is registered. *)
Record UploadFileResponse := mkUploadFileResponse {
  objectKey : string;
  upload_uri : string;
  publicUrl : option string;
  publicUrls : list string;
  etag : option string;
  versionId : option string
}.

(** [HeadObjectResponse] of ./types, as [headObject] builds it. *)
Record HeadObjectResponse := mkHeadObjectResponse {
  lastModified : option Z;
  contentLength : option Z;
  acceptRanges : option string;
  head_etag : option string;
  contentType : option string;
  customMetadata : option (list (string * string))
}.

(** [constructor(r2, bucketName, endpoint)]: throws when [endpoint] is not a
    URL. *)
Definition constructor `{UrlApi} (bucketName endpoint : string) : Error + Bucket :=
  match url_origin endpoint with
  | None => inl invalid_url
  | Some origin =>
      inr {| name := bucketName;
             endpoint := origin;
             uri := Js.slash_join origin bucketName;
             bucketPublicUrls := [] |}
  end.

Definition getBucketName (this : Bucket) : string := name this.

Definition getUri (this : Bucket) : string := uri this.

(** [this.bucketPublicUrls.push(origin)] *)
Definition push_public_url (origin : string) (this : Bucket) : Bucket :=
  {| name := name this;
     endpoint := endpoint this;
     uri := uri this;
     bucketPublicUrls := bucketPublicUrls this ++ [origin] |}.

(** The branch [typeof bucketPublicUrl === "string"] of
    [provideBucketPublicUrl]. *)
Definition provideBucketPublicUrl_string `{UrlApi} (bucketPublicUrl : string)
  : Eff Bucket unit :=
  origin <- (fun this =>
               match url_origin bucketPublicUrl with
               | Some o => (inr o, this)
               | None => (inl invalid_url, this)
               end) ;;
  known <- gets (fun this => Js.includes (bucketPublicUrls this) origin) ;;
  if negb known then modify (push_public_url origin) else ret tt.

(** [provideBucketPublicUrl(bucketPublicUrl: string | string[])]: the array
    branch calls the method on each element, which takes the string branch.
    The method returns [this], the state of the computation. *)
Definition provideBucketPublicUrl `{UrlApi} (bucketPublicUrl : string + list string)
  : Eff Bucket unit :=
  match bucketPublicUrl with
  | inl url => provideBucketPublicUrl_string url
  | inr urls => for_of urls provideBucketPublicUrl_string
  end.

(** [getPublicUrl()], deprecated. *)
Definition getPublicUrl (this : Bucket) : option string :=
  if (length (bucketPublicUrls this) =? 0)%nat
  then None
  else Js.at_ (bucketPublicUrls this) 0.

(** [getPublicUrls()] *)
Definition getPublicUrls (this : Bucket) : list string := bucketPublicUrls this.

(** [`${x}`] for a string that may be [undefined]. *)
Definition template_string (x : option string) : string :=
  match x with
  | Some s => s
  | None => "undefined"
  end.

(** [generateObjectPublicUrl(objectKey)] *)
Definition generateObjectPublicUrl (this : Bucket) (objectKey : string)
  : option string :=
  if (length (bucketPublicUrls this) =? 0)%nat
  then None
  else Some (Js.slash_join (template_string (Js.at_ (bucketPublicUrls this) 0))
                           objectKey).

(** [generateObjectPublicUrls(objectKey)] *)
Definition generateObjectPublicUrls (this : Bucket) (objectKey : string)
  : list string :=
  if (length (bucketPublicUrls this) =? 0)%nat
  then []
  else map (fun publicUrl => Js.slash_join publicUrl objectKey)
           (bucketPublicUrls this).

(** [getObjectPublicUrls(objectKey)] *)
Definition getObjectPublicUrls (this : Bucket) (objectKey : string) : list string :=
  map (fun bucketPublicUrl => Js.slash_join bucketPublicUrl objectKey)
      (bucketPublicUrls this).

(** [private normalizeDestination(destination)] *)
Definition normalizeDestination (destination : string) : string :=
  if Js.startsWith_slash destination
  then Js.replace_leading_slashes destination
  else destination.

Section Remote.

Context {World : Type} `{S3Client World}.

(** [exists()] *)
Definition exists_ (this : Bucket) : Async World bool :=
  try_catch
    (result <- send (HeadBucketCommand (name this)) ;;
     ret (Js.strict_eq_number (httpStatusCode result) 200))
    (fun _ => ret false).

(** The projection of a rule in [getCorsPolicies]. *)
Definition cors_policy_of (rule : CORSRule) : CORSPolicy :=
  {| allowedHeaders := AllowedHeaders rule;
     allowedMethods := AllowedMethods rule;
     allowedOrigins := AllowedOrigins rule;
     exposeHeaders := ExposeHeaders rule;
     id := ID rule;
     maxAgeSeconds := MaxAgeSeconds rule |}.

(** [getCorsPolicies()] *)
Definition getCorsPolicies (this : Bucket) : Async World (list CORSPolicy) :=
  try_catch
    (result <- send (GetBucketCorsCommand (name this)) ;;
     ret (Js.or_empty (option_map (map cors_policy_of) (CORSRules result))))
    (fun _ => ret []).

(** [getCors()], deprecated: an [async] method that returns the promise of
    [getCorsPolicies()] settles as that promise does. *)
Definition getCors (this : Bucket) : Async World (list CORSPolicy) :=
  policies <- getCorsPolicies this ;; ret policies.

(** The result [upload] and [uploadStream] build from the response. *)
Definition upload_response (this : Bucket) (normalizedDestination : string)
  (result : Response) : UploadFileResponse :=
  {| objectKey := normalizedDestination;
     upload_uri := Js.slash_join (uri this) normalizedDestination;
     publicUrl := generateObjectPublicUrl this normalizedDestination;
     publicUrls := generateObjectPublicUrls this normalizedDestination;
     etag := ETag result;
     versionId := VersionId result |}.

(** The parameters [upload] and [uploadStream] build. *)
Definition put_params (this : Bucket) (contents : Contents)
  (normalizedDestination : string)
  (customMetadata : option (list (string * string))) (mimeType : option string)
  : PutObject.Input :=
  {| PutObject.Bucket := name this;
     PutObject.Key := normalizedDestination;
     PutObject.Body := contents;
     PutObject.ContentType := Js.or_string mimeType "application/octet-stream";
     PutObject.Metadata := customMetadata |}.

(** [upload(contents, destination, customMetadata?, mimeType?)] *)
Definition upload (this : Bucket) (contents : Contents) (destination : string)
  (customMetadata : option (list (string * string))) (mimeType : option string)
  : Async World UploadFileResponse :=
  let normalizedDestination := normalizeDestination destination in
  result <- send (PutObjectCommand
                    (put_params this contents normalizedDestination
                                customMetadata mimeType)) ;;
  ret (upload_response this normalizedDestination result).

(** [uploadStream(contents, destination, customMetadata?, mimeType?,
    onProgress?)] *)
Definition uploadStream (this : Bucket) (contents : Contents) (destination : string)
  (customMetadata : option (list (string * string))) (mimeType : option string)
  (onProgress : option (Progress -> unit))
  : Async World UploadFileResponse :=
  let normalizedDestination := normalizeDestination destination in
  let params :=
    put_params this contents normalizedDestination customMetadata mimeType in
  let listener :=
    match onProgress with
    | Some f => Some (fun progress => f progress)
    | None => None
    end in
  result <- upload_done params listener ;;
  ret (upload_response this normalizedDestination result).

(** [deleteObject(objectKey)] *)
Definition deleteObject (this : Bucket) (objectKey : string) : Async World JsValue :=
  result <- send (DeleteObjectCommand (name this) objectKey) ;;
  let code := Js.of_number (httpStatusCode result) in
  ret (Js.and_ (Js.and_ code (JsBoolean (Js.ge code 200)))
               (JsBoolean (Js.lt code 300))).

(** [deleteFile(file)], deprecated. *)
Definition deleteFile (this : Bucket) (file : string) : Async World JsValue :=
  deleted <- deleteObject this file ;; ret deleted.

(** [headObject(objectKey)] *)
Definition headObject (this : Bucket) (objectKey : string)
  : Async World HeadObjectResponse :=
  result <- send (HeadObjectCommand (name this) objectKey) ;;
  ret {| lastModified := LastModified result;
         contentLength := ContentLength result;
         acceptRanges := AcceptRanges result;
         head_etag := ETag result;
         contentType := ContentType result;
         customMetadata := Metadata result |}.

(** [copyObject(sourceObjectKey, destinationObjectKey)] *)
Definition copyObject (this : Bucket) (sourceObjectKey destinationObjectKey : string)
  : Async World Response :=
  result <- send (CopyObjectCommand (name this) sourceObjectKey
                                    destinationObjectKey) ;;
  ret result.

(** [objectExists(objectkey)] *)
Definition objectExists (this : Bucket) (objectkey : string) : Async World bool :=
  try_catch
    (result <- headObject this objectkey ;;
     ret (Js.truthy (Js.of_number (contentLength result))))
    (fun _ => ret false).

(** The handler of [getBucketTags] and [getObjectTags]. *)
Definition catch_no_tag_set (error : Error) : Async World (list Tag) :=
  if String.eqb (error_name error) "NoSuchTagSet" then ret [] else throw error.

(** [getBucketTags()] *)
Definition getBucketTags (this : Bucket) : Async World (list Tag) :=
  try_catch
    (result <- send (GetBucketTaggingCommand (name this)) ;;
     ret (Js.or_empty (TagSet result)))
    catch_no_tag_set.

(** [getObjectTags(objectKey)] *)
Definition getObjectTags (this : Bucket) (objectKey : string)
  : Async World (list Tag) :=
  try_catch
    (result <- send (GetObjectTaggingCommand (name this) objectKey) ;;
     ret (Js.or_empty (TagSet result)))
    catch_no_tag_set.

End Remote.

(** ** Registering public URLs: the calls of a caller, and what they amount to *)

(** A caller that makes the calls one after the other on the same bucket and
    goes on after a call that threw. *)
Fixpoint provide_all `{UrlApi} (calls : list (string + list string)) (this : Bucket)
  : Bucket :=
  match calls with
  | [] => this
  | call :: rest => provide_all rest (snd (provideBucketPublicUrl call this))
  end.

(** The origins of the inputs a call gets to before it returns or throws:
    those of the elements up to the first unparseable one. *)
Fixpoint origins_until_throw `{UrlApi} (urls : list string) : list string :=
  match urls with
  | [] => []
  | url :: rest =>
      match url_origin url with
      | Some origin => origin :: origins_until_throw rest
      | None => []
      end
  end.

Definition origins_of_call `{UrlApi} (call : string + list string) : list string :=
  match call with
  | inl url => origins_until_throw [url]
  | inr urls => origins_until_throw urls
  end.

(** A list without the later repetitions of its elements. *)
Fixpoint first_occurrences (l : list string) : list string :=
  match l with
  | [] => []
  | x :: rest =>
      x :: filter (fun y => negb (String.eqb y x)) (first_occurrences rest)
  end.

(** What the array holds after the origins [os] went through the test and
    [push] of the string branch, one by one. *)
Definition append_new (acc os : list string) : list string :=
  fold_left (fun a o => if negb (Js.includes a o) then (a ++ [o])%list else a) os acc.

(** ** Requests and outcomes, as the documentation speaks of them *)

(** The [Key] a command carries, if it has one. *)
Definition command_key (c : Command) : option string :=
  match c with
  | PutObjectCommand input => Some (PutObject.Key input)
  | DeleteObjectCommand _ key => Some key
  | HeadObjectCommand _ key => Some key
  | CopyObjectCommand _ _ key => Some key
  | GetObjectTaggingCommand _ key => Some key
  | HeadBucketCommand _ => None
  | GetBucketCorsCommand _ => None
  | GetBucketTaggingCommand _ => None
  end.

(** The [Key] a request transmits. *)
Definition request_key (r : Request) : option string :=
  match r with
  | Sent c => command_key c
  | Uploaded params _ => Some (PutObject.Key params)
  end.

(** How a tag query settles, given how the remote answered: the tag set of a
    successful answer (none is the empty one), the empty sequence for the
    error named [NoSuchTagSet], and any other error unchanged. *)
Inductive tags_settle : Error + Response -> Error + list Tag -> Prop :=
| tags_returned (r : Response) (tags : list Tag) :
    TagSet r = Some tags -> tags_settle (inr r) (inr tags)
| tags_absent (r : Response) :
    TagSet r = None -> tags_settle (inr r) (inr [])
| tags_not_configured (e : Error) :
    error_name e = "NoSuchTagSet" -> tags_settle (inl e) (inr [])
| tags_failure (e : Error) :
    error_name e <> "NoSuchTagSet" -> tags_settle (inl e) (inl e).

(** ** Sample collaborators, for running the methods on concrete inputs *)

(** A few entries of the URL constructor, with the origins the WHATWG parser
    gives; the three last have no scheme and make it throw, as does every
    string this table does not list. *)
Definition sample_url_origin (s : string) : option string :=
  if String.eqb s "https://cdn.x/a" then Some "https://cdn.x"
  else if String.eqb s "https://cdn.x/b" then Some "https://cdn.x"
  else if String.eqb s "https://img.y:8443/p?q=1#f" then Some "https://img.y:8443"
  else if String.eqb s "https://acc.r2.cloudflarestorage.com"
       then Some "https://acc.r2.cloudflarestorage.com"
  else if String.eqb s "cdn.x/a" then None
  else if String.eqb s "not a url" then None
  else if String.eqb s "" then None
  else None.

Definition sample_urls : UrlApi := {| url_origin := sample_url_origin |}.

(** A remote that answers the requests with the outcomes of a script, in
    order, and rejects once the script is used up. *)
Definition scripted (w : list (Error + Response)) : (Error + Response) * list (Error + Response) :=
  match w with
  | outcome :: rest => (outcome, rest)
  | [] => (inl {| error_name := "TimeoutError"; error_message := "no answer" |}, [])
  end.

Definition scripted_client : S3Client (list (Error + Response)) :=
  {| r2_send := fun _ w => scripted w;
     Upload_done := fun _ _ w => scripted w |}.

(** A response with a status code and nothing else. *)
Definition status_only (code : option Z) : Response :=
  {| httpStatusCode := code; ETag := None; VersionId := None;
     LastModified := None; ContentLength := None; AcceptRanges := None;
     ContentType := None; Metadata := None; TagSet := None; CORSRules := None |}.

(** A successful answer to a head-object request for an object of [len]
    bytes. *)
Definition head_ok (len : Z) : Response :=
  {| httpStatusCode := Some 200%Z; ETag := Some "etag"; VersionId := None;
     LastModified := Some 0%Z; ContentLength := Some len;
     AcceptRanges := Some "bytes"; ContentType := Some "text/plain";
     Metadata := None; TagSet := None; CORSRules := None |}.

(** A successful answer to a tagging request. *)
Definition tags_ok (tags : option (list Tag)) : Response :=
  {| httpStatusCode := Some 200%Z; ETag := None; VersionId := None;
     LastModified := None; ContentLength := None; AcceptRanges := None;
     ContentType := None; Metadata := None; TagSet := tags; CORSRules := None |}.

Definition sample_bucket : Bucket :=
  {| name := "photos";
     endpoint := "https://acc.r2.cloudflarestorage.com";
     uri := "https://acc.r2.cloudflarestorage.com/photos";
     bucketPublicUrls := [] |}.

(** The network before anything was sent, with the script [w] to come. *)
Definition fresh (w : list (Error + Response)) : Net (list (Error + Response)) :=
  mkNet w [].

(** ** The other commands of the client

    [r2.send] is generic in the command it is given; the commands of the
    methods below and what they resolve with have a send of their own type. *)

Module Encryption.

Record ByDefault := mkByDefault {
  SSEAlgorithm : option string;
  KMSMasterKeyID : option string
}.

Record Rule := mkRule {
  ApplyServerSideEncryptionByDefault : option ByDefault;
  BucketKeyEnabled : option bool
}.

(** [ServerSideEncryptionConfiguration] *)
Record Configuration := mkConfiguration { Rules : option (list Rule) }.

End Encryption.

Module Listing.

(** An entry of [Contents] in the answer to [ListObjectsCommand]. *)
Record Object := mkObject {
  Key : option string;
  LastModified : option Z;
  ETag : option string;
  ChecksumAlgorithm : option (list string);
  Size : option Z;
  StorageClass : option string
}.

End Listing.

Module Other.

Inductive Command :=
| GetBucketLocationCommand (Bucket : string)
| GetBucketEncryptionCommand (Bucket : string)
| ListObjectsCommand (Bucket : string) (MaxKeys : Z) (Marker : option string)
| PutBucketTaggingCommand (Bucket : string) (TagSet : list Tag)
| DeleteBucketTaggingCommand (Bucket : string)
| PutObjectTaggingCommand (Bucket Key : string) (TagSet : list Tag)
| DeleteObjectTaggingCommand (Bucket Key : string).

(** The fields the methods read from the answers, each possibly absent. *)
Record Response := mkResponse {
  LocationConstraint : option string;
  ServerSideEncryptionConfiguration : option Encryption.Configuration;
  Contents : option (list Listing.Object);
  Marker : option string;
  NextMarker : option string
}.

(** [r2.send] on these commands. *)
Class Client (World : Type) := {
  r2_send : Command -> World -> (Error + Response) * World
}.

End Other.

(** What [getEncryption] returns for a rule. *)
Record EncryptionDefault := mkEncryptionDefault {
  sseAlgorithm : option string;
  kmsMasterKeyId : option string
}.

Record EncryptionRule := mkEncryptionRule {
  applyServerSideEncryptionByDefault : EncryptionDefault;
  bucketKeyEnabled : option bool
}.

Module ObjectList.

(** An entry of [objects] in [ObjectListResponse] of ./types. *)
Record Item := mkItem {
  key : option string;
  lastModified : option Z;
  etag : option string;
  checksumAlgorithm : option (list string);
  size : option Z;
  storageClass : option string
}.

(** [ObjectListResponse] of ./types, as [listObjects] builds it. *)
Record Response := mkResponse {
  objects : list Item;
  continuationToken : option string;
  nextContinuationToken : option string
}.

End ObjectList.

Section OtherMethods.

Context {World : Type} `{Other.Client World}.

(** [await this.r2.send(command)] for these commands. *)
Definition send_other (c : Other.Command) : Eff World Other.Response :=
  fun w => Other.r2_send c w.

(** [getRegion()] *)
Definition getRegion (this : Bucket) : Eff World string :=
  result <- send_other (Other.GetBucketLocationCommand (name this)) ;;
  ret (Js.or_string (Other.LocationConstraint result) "auto").

(** The projection of a rule in [getEncryption]; [x?.f] is [undefined] when
    [x] is. *)
Definition encryption_rule_of (rule : Encryption.Rule) : EncryptionRule :=
  {| applyServerSideEncryptionByDefault :=
       {| sseAlgorithm :=
            match Encryption.ApplyServerSideEncryptionByDefault rule with
            | Some d => Encryption.SSEAlgorithm d
            | None => None
            end;
          kmsMasterKeyId :=
            match Encryption.ApplyServerSideEncryptionByDefault rule with
            | Some d => Encryption.KMSMasterKeyID d
            | None => None
            end |};
     bucketKeyEnabled := Encryption.BucketKeyEnabled rule |}.

(** [getEncryption()] *)
Definition getEncryption (this : Bucket) : Eff World (list EncryptionRule) :=
  result <- send_other (Other.GetBucketEncryptionCommand (name this)) ;;
  let rules :=
    Js.or_empty
      (match Other.ServerSideEncryptionConfiguration result with
       | Some configuration =>
           option_map (map encryption_rule_of) (Encryption.Rules configuration)
       | None => None
       end) in
  ret rules.



(** [setBucketTags(tags)] *)
Definition setBucketTags (this : Bucket) (tags : list Tag) : Eff World unit :=
  _ <- send_other (Other.PutBucketTaggingCommand (name this) tags) ;;
  ret tt.

(** [deleteBucketTags()] *)
Definition deleteBucketTags (this : Bucket) : Eff World unit :=
  _ <- send_other (Other.DeleteBucketTaggingCommand (name this)) ;;
  ret tt.

(** [setObjectTags(objectKey, tags)] *)
Definition setObjectTags (this : Bucket) (objectKey : string) (tags : list Tag)
  : Eff World unit :=
  _ <- send_other (Other.PutObjectTaggingCommand (name this) objectKey tags) ;;
  ret tt.

(** [deleteObjectTags(objectKey)] *)
Definition deleteObjectTags (this : Bucket) (objectKey : string) : Eff World unit :=
  _ <- send_other (Other.DeleteObjectTaggingCommand (name this) objectKey) ;;
  ret tt.

End OtherMethods.

(** ** Uploading a local file

    [createReadStream] and [basename] are Node's; a [PathLike] is a string, a
    [Buffer] or a [URL], and [file.toString()] its text.  [createReadStream]
    either returns a stream or throws at once, as it does on a path with a
    NUL character or a URL that is not a file URL; [toString] and [basename]
    on a string do not throw. *)
Class NodeFs (PathLike : Type) := {
  path_toString : PathLike -> string;
  basename : string -> string;
  createReadStream : PathLike -> Error + Contents
}.

(** What happens to the streams over local files. *)
Inductive FsEvent (PathLike : Type) :=
| StreamCreated (file : PathLike)
| StreamClosed (file : PathLike).
Arguments StreamCreated {PathLike} _.
Arguments StreamClosed {PathLike} _.

(** The network together with the streams of the process. *)
Record Process (World PathLike : Type) := mkProcess {
  net : Net World;
  streams : list (FsEvent PathLike)
}.
Arguments mkProcess {World PathLike} _ _.
Arguments net {World PathLike} _.
Arguments streams {World PathLike} _.

Section LocalFile.

Context {World : Type} `{S3Client World} {PathLike : Type} `{NodeFs PathLike}.

(** An [async] method of the class awaited in a process. *)
Definition on_net {A : Type} (m : Async World A) : Eff (Process World PathLike) A :=
  fun p =>
    let (outcome, n) := m (net p) in
    (outcome, mkProcess n (streams p)).

Definition fs_event (e : FsEvent PathLike) : Eff (Process World PathLike) unit :=
  modify (fun p => mkProcess (net p) (streams p ++ [e])).

(** [uploadFile(file, destination?, customMetadata?, mimeType?)]: the stream
    is created before the [try], so a throw of [createReadStream] rejects the
    call with nothing created, closed or sent. *)
Definition uploadFile (this : Bucket) (file : PathLike) (destination : option string)
  (customMetadata : option (list (string * string))) (mimeType : option string)
  : Eff (Process World PathLike) UploadFileResponse :=
  match createReadStream file with
  | inl thrown => throw thrown
  | inr fileStream =>
      _ <- fs_event (StreamCreated file) ;;
      try_catch
        (result <- on_net (upload this fileStream
                                  (Js.or_string destination
                                                (basename (path_toString file)))
                                  customMetadata mimeType) ;;
         _ <- fs_event (StreamClosed file) ;;
         ret result)
        (fun error =>
           _ <- fs_event (StreamClosed file) ;;
           throw error)
  end.

End LocalFile.

(** ** More sample collaborators *)

(** A remote for the other commands, scripted as [scripted_client] is. *)
Definition scripted_other (w : list (Error + Other.Response))
  : (Error + Other.Response) * list (Error + Other.Response) :=
  match w with
  | outcome :: rest => (outcome, rest)
  | [] => (inl {| error_name := "TimeoutError"; error_message := "no answer" |}, [])
  end.

Definition scripted_other_client : Other.Client (list (Error + Other.Response)) :=
  {| Other.r2_send := fun _ w => scripted_other w |}.

(** An answer with a location and nothing else. *)
Definition location_only (location : option string) : Other.Response :=
  {| Other.LocationConstraint := location;
     Other.ServerSideEncryptionConfiguration := None;
     Other.Contents := None;
     Other.Marker := None;
     Other.NextMarker := None |}.

(** Paths as strings; two entries of [basename], which is the identity on
    what this table does not list. *)
Definition sample_basename (path : string) : string :=
  if String.eqb path "/tmp/photos/cat.png" then "cat.png"
  else if String.eqb path "notes.txt" then "notes.txt"
  else path.

(** Whether a path holds the NUL character. *)
Fixpoint has_nul (path : string) : bool :=
  match path with
  | EmptyString => false
  | String c rest => Ascii.eqb c Ascii.zero || has_nul rest
  end.

(** The error [createReadStream] throws on a path with a NUL character. *)
Definition invalid_path : Error :=
  {| error_name := "TypeError";
     error_message := "The argument 'path' must be a string, Uint8Array, or URL without null bytes." |}.

(** The path ["/tmp/a"], NUL, ["b"]. *)
Definition nul_path : string := "/tmp/a" ++ String Ascii.zero "b".

Definition sample_fs : NodeFs string :=
  {| path_toString := fun path => path;
     basename := sample_basename;
     createReadStream :=
       fun path => if has_nul path then inl invalid_path
                   else inr (StreamContents []) |}.

(** A bucket with two public URLs registered. *)
Definition sample_public_bucket : Bucket :=
  {| name := "photos";
     endpoint := "https://acc.r2.cloudflarestorage.com";
     uri := "https://acc.r2.cloudflarestorage.com/photos";
     bucketPublicUrls := ["https://cdn.x"; "https://img.y:8443"] |}.

(** * Properties *)

(** ** Path normalisation *)

Example normalize_plain : normalizeDestination "a/b.txt" = "a/b.txt".
Proof. reflexivity. Qed.

Example normalize_three : normalizeDestination "///a//b" = "a//b".
Proof. reflexivity. Qed.

Example normalize_only_slashes : normalizeDestination "//" = "".
Proof. reflexivity. Qed.

Lemma skip_slashes_no_slash (s : string) :
  Js.startsWith_slash (Js.skip_slashes s) = false.
Proof.
  induction s as [|c r IH]; simpl; auto.
  destruct (Ascii.eqb c "/") eqn:E; auto.
Qed.

Lemma skip_slashes_split (s : string) :
  exists n, s = Js.slashes n ++ Js.skip_slashes s.
Proof.
  induction s as [|c r [n IH]]; simpl.
  - exists 0%nat. reflexivity.
  - destruct (Ascii.eqb c "/") eqn:E.
    + apply Ascii.eqb_eq in E. subst c.
      exists (S n). simpl. f_equal. exact IH.
    + exists 0%nat. reflexivity.
Qed.

Lemma normalizeDestination_skip (k : string) :
  normalizeDestination k = Js.skip_slashes k.
Proof.
  unfold normalizeDestination.
  destruct k as [|c r]; simpl; auto.
  destruct (Ascii.eqb c "/"); reflexivity.
Qed.

Lemma normalizeDestination_fixed (k : string) :
  Js.startsWith_slash k = false -> normalizeDestination k = k.
Proof.
  unfold normalizeDestination. intros ->. reflexivity.
Qed.

(** C5: a key that starts with one or more ["/"] is that run of ["/"]
    followed by its normalisation, the normalisation starts with no ["/"],
    and normalising twice is the same as normalising once, for every key. *)
Theorem normalizeDestination_strips_and_idempotent :
  forall k : string,
    (exists n : nat,
        k = Js.slashes n ++ normalizeDestination k /\
        (if Js.startsWith_slash k then (1 <= n)%nat else n = 0%nat)) /\
    Js.startsWith_slash (normalizeDestination k) = false /\
    normalizeDestination (normalizeDestination k) = normalizeDestination k.
Proof.
  intro k.
  assert (Hno : Js.startsWith_slash (normalizeDestination k) = false).
  { rewrite normalizeDestination_skip. apply skip_slashes_no_slash. }
  repeat split.
  - destruct (Js.startsWith_slash k) eqn:E.
    + destruct k as [|c r]; [discriminate|].
      simpl in E. apply Ascii.eqb_eq in E. subst c.
      rewrite normalizeDestination_skip. simpl.
      destruct (skip_slashes_split r) as [n Hn].
      exists (S n). split; [|lia].
      simpl. f_equal. exact Hn.
    + exists 0%nat. split; [|reflexivity].
      rewrite normalizeDestination_fixed by exact E. reflexivity.
  - exact Hno.
  - apply normalizeDestination_fixed. exact Hno.
Qed.

(** ** The public-URL set *)

Lemma includes_In (arr : list string) (x : string) :
  Js.includes arr x = true <-> In x arr.
Proof.
  unfold Js.includes. rewrite existsb_exists. split.
  - intros [y [Hy E]]. apply String.eqb_eq in E. subst y. exact Hy.
  - intro Hx. exists x. split; [exact Hx | apply String.eqb_refl].
Qed.

Lemma includes_app (a b : list string) (x : string) :
  Js.includes (a ++ b) x = Js.includes a x || Js.includes b x.
Proof. unfold Js.includes. apply existsb_app. Qed.

Lemma filter_twice {A : Type} (p q : A -> bool) (l : list A) :
  filter p (filter q l) = filter (fun x => q x && p x) l.
Proof.
  induction l as [|x l IH]; simpl; auto.
  destruct (q x); simpl; [destruct (p x)|]; rewrite IH; reflexivity.
Qed.

Lemma filter_all {A : Type} (p : A -> bool) (l : list A) :
  (forall x, In x l -> p x = true) -> filter p l = l.
Proof.
  induction l as [|x l IH]; simpl; intro Hp; auto.
  rewrite (Hp x) by auto. f_equal. apply IH. auto.
Qed.

(** The accumulation of the code against the list-level description: the
    array grows by the first occurrences of the origins it did not hold. *)
Lemma append_new_first_occurrences (os acc : list string) :
  append_new acc os =
  (acc ++ filter (fun y => negb (Js.includes acc y)) (first_occurrences os))%list.
Proof.
  unfold append_new. revert acc.
  induction os as [|o os IH]; intro acc; simpl.
  - now rewrite app_nil_r.
  - rewrite IH. destruct (Js.includes acc o) eqn:E; simpl.
    + f_equal. rewrite filter_twice. apply filter_ext. intro y.
      destruct (String.eqb y o) eqn:Ey; simpl; auto.
      apply String.eqb_eq in Ey. subst y. now rewrite E.
    + rewrite <- app_assoc. simpl. do 2 f_equal.
      rewrite filter_twice. apply filter_ext. intro y.
      rewrite includes_app. unfold Js.includes at 2. simpl.
      rewrite orb_false_r, negb_orb. apply andb_comm.
Qed.

Lemma first_occurrences_In (l : list string) (x : string) :
  In x (first_occurrences l) <-> In x l.
Proof.
  induction l as [|y l IH]; simpl; [tauto|].
  rewrite filter_In, IH. split.
  - intros [->|[Hx _]]; auto.
  - intros [->|Hx]; auto.
    destruct (String.eqb x y) eqn:E.
    + apply String.eqb_eq in E. auto.
    + right. split; auto.
Qed.

Lemma NoDup_filter_string (p : string -> bool) (l : list string) :
  NoDup l -> NoDup (filter p l).
Proof.
  induction 1 as [|x l Hx Hl IH]; simpl; [constructor|].
  destruct (p x); auto. constructor; auto.
  rewrite filter_In. tauto.
Qed.

Lemma first_occurrences_NoDup (l : list string) : NoDup (first_occurrences l).
Proof.
  induction l as [|x l IH]; simpl; constructor.
  - rewrite filter_In. intros [_ E]. now rewrite String.eqb_refl in E.
  - now apply NoDup_filter_string.
Qed.

Section PublicUrls.

Context `{UrlApi}.

(** One call in the string form: the fields other than the array stay, and
    the array takes the origin if the URL parses and the origin is new. *)
Lemma provide_string_state (url : string) (this : Bucket) :
  snd (provideBucketPublicUrl_string url this) =
  {| name := name this; endpoint := endpoint this; uri := uri this;
     bucketPublicUrls :=
       append_new (bucketPublicUrls this) (origins_until_throw [url]) |}.
Proof.
  unfold provideBucketPublicUrl_string, bind, gets, modify, ret, append_new.
  simpl. destruct (url_origin url) as [o|]; simpl.
  - destruct (Js.includes (bucketPublicUrls this) o); simpl;
      destruct this; reflexivity.
  - destruct this; reflexivity.
Qed.

Lemma provide_string_throws (url : string) (this : Bucket) :
  url_origin url = None ->
  provideBucketPublicUrl_string url this = (inl invalid_url, this).
Proof.
  intro E. unfold provideBucketPublicUrl_string, bind. now rewrite E.
Qed.

Lemma provide_string_returns (url origin : string) (this : Bucket) :
  url_origin url = Some origin ->
  fst (provideBucketPublicUrl_string url this) = inr tt.
Proof.
  intro E. unfold provideBucketPublicUrl_string, bind, gets, modify, ret.
  rewrite E. now destruct (Js.includes (bucketPublicUrls this) origin).
Qed.

Lemma for_of_state (urls : list string) (this : Bucket) :
  snd (for_of urls provideBucketPublicUrl_string this) =
  {| name := name this; endpoint := endpoint this; uri := uri this;
     bucketPublicUrls :=
       append_new (bucketPublicUrls this) (origins_until_throw urls) |}.
Proof.
  revert this. induction urls as [|url urls IH]; intro this.
  - destruct this; reflexivity.
  - simpl for_of. unfold bind.
    destruct (provideBucketPublicUrl_string url this) as [[e|[]] this'] eqn:E.
    + simpl. destruct (url_origin url) as [o|] eqn:Eo.
      * pose proof (provide_string_returns url o this Eo) as R.
        rewrite E in R. discriminate.
      * rewrite provide_string_throws in E by exact Eo.
        inversion E; subst. destruct this'; reflexivity.
    + rewrite IH.
      pose proof (provide_string_state url this) as St. rewrite E in St.
      simpl in St. subst this'. simpl.
      destruct (url_origin url) as [o|] eqn:Eo; [reflexivity|].
      rewrite provide_string_throws in E by exact Eo. discriminate.
Qed.

Lemma provide_state (call : string + list string) (this : Bucket) :
  snd (provideBucketPublicUrl call this) =
  {| name := name this; endpoint := endpoint this; uri := uri this;
     bucketPublicUrls :=
       append_new (bucketPublicUrls this) (origins_of_call call) |}.
Proof.
  destruct call as [url|urls]; simpl.
  - apply provide_string_state.
  - apply for_of_state.
Qed.

Lemma provide_all_urls (calls : list (string + list string)) (this : Bucket) :
  bucketPublicUrls (provide_all calls this) =
  append_new (bucketPublicUrls this) (flat_map origins_of_call calls).
Proof.
  revert this. induction calls as [|call calls IH]; intro this; simpl; auto.
  rewrite IH, provide_state. simpl.
  unfold append_new. now rewrite fold_left_app.
Qed.

(** A bucket comes out of the constructor with no public URL. *)
Lemma constructor_fresh (bucketName endpoint : string) (this : Bucket) :
  constructor bucketName endpoint = inr this ->
  exists origin,
    url_origin endpoint = Some origin /\
    this = mkBucket bucketName origin (Js.slash_join origin bucketName) [].
Proof.
  unfold constructor. destruct (url_origin endpoint) as [origin|]; [|discriminate].
  intro E. injection E as <-. exists origin. split; reflexivity.
Qed.

(** C4: whatever calls are made on a new bucket, with single URLs or arrays,
    parseable or not, the array [getPublicUrls] returns has no duplicates: it
    is the list of the origins of the inputs the calls got to, each kept at
    its first occurrence, in that order. *)
Theorem getPublicUrls_no_duplicates :
  forall (calls : list (string + list string)) (bucketName endpointOrigin : string),
    let this :=
      provide_all calls
        (mkBucket bucketName endpointOrigin
                  (Js.slash_join endpointOrigin bucketName) []) in
    NoDup (getPublicUrls this) /\
    getPublicUrls this = first_occurrences (flat_map origins_of_call calls).
Proof.
  intros calls bucketName endpointOrigin this.
  assert (E : getPublicUrls this =
              first_occurrences (flat_map origins_of_call calls)).
  { unfold getPublicUrls, this. rewrite provide_all_urls. simpl.
    rewrite append_new_first_occurrences. simpl.
    apply filter_all. reflexivity. }
  split; [|exact E].
  rewrite E. apply first_occurrences_NoDup.
Qed.

(** C10: the string form on an unparseable input throws the [TypeError] of
    the URL constructor and leaves the bucket, its array of public URLs
    included, as it was. *)
Theorem provideBucketPublicUrl_unparseable :
  forall (bucketPublicUrl : string) (this : Bucket),
    url_origin bucketPublicUrl = None ->
    provideBucketPublicUrl (inl bucketPublicUrl) this = (inl invalid_url, this) /\
    getPublicUrls (snd (provideBucketPublicUrl (inl bucketPublicUrl) this)) =
    getPublicUrls this.
Proof.
  intros url this E. simpl.
  rewrite provide_string_throws by exact E. split; reflexivity.
Qed.

End PublicUrls.

(** ** Object URLs *)

Example object_urls_keep_the_key :
  getObjectPublicUrls
    (mkBucket "photos" "https://e" "https://e/photos"
              ["https://cdn.x"; "https://img.y:8443"]) "/a//b.png" =
  ["https://cdn.x//a//b.png"; "https://img.y:8443//a//b.png"].
Proof. reflexivity. Qed.

(** C6: with no base URL registered the result is the empty array; in
    general it has one entry per registered base URL, and the entry at each
    position is the base URL at that position, ["/"] and the key as given. *)
Theorem getObjectPublicUrls_entries :
  forall (this : Bucket) (objectKey : string),
    (getPublicUrls this = [] -> getObjectPublicUrls this objectKey = []) /\
    length (getObjectPublicUrls this objectKey) = length (getPublicUrls this) /\
    (forall i : nat,
        nth_error (getObjectPublicUrls this objectKey) i =
        option_map (fun base => base ++ "/" ++ objectKey)
                   (nth_error (getPublicUrls this) i)).
Proof.
  intros this objectKey. unfold getObjectPublicUrls, getPublicUrls.
  repeat split.
  - intros ->. reflexivity.
  - apply length_map.
  - intro i. apply nth_error_map.
Qed.

(** ** Remote methods *)

Lemma at_0_head {A : Type} (l : list A) : Js.at_ l 0 = hd_error l.
Proof. destruct l; reflexivity. Qed.

Lemma getPublicUrl_head (this : Bucket) :
  getPublicUrl this = hd_error (getPublicUrls this).
Proof.
  unfold getPublicUrl, getPublicUrls.
  destruct (bucketPublicUrls this); reflexivity.
Qed.

Section RemoteFacts.

Context {World : Type} `{S3Client World}.

(** Awaiting and returning the result of a computation is that computation. *)
Lemma bind_ret_same {S A : Type} (m : Eff S A) (s : S) :
  (x <- m ;; ret x) s = m s.
Proof. unfold bind, ret. destruct (m s) as [[e|a] s']; reflexivity. Qed.

Lemma send_outcome (c : Command) (n : Net World) :
  send c n =
  (fst (r2_send c (remote n)),
   mkNet (snd (r2_send c (remote n))) (sent n ++ [Sent c])).
Proof. unfold send. destruct (r2_send c (remote n)); reflexivity. Qed.

Lemma upload_done_outcome (params : PutObject.Input)
  (listener : option (Progress -> unit)) (n : Net World) :
  upload_done params listener n =
  (fst (Upload_done params listener (remote n)),
   mkNet (snd (Upload_done params listener (remote n)))
         (sent n ++ [Uploaded params listener])).
Proof.
  unfold upload_done. destruct (Upload_done params listener (remote n)).
  reflexivity.
Qed.

(** A method that sends one command and maps the response leaves the network
    as the command left it. *)
Lemma bind_send_net {A : Type} (c : Command) (f : Response -> A) (n : Net World) :
  snd ((result <- send c ;; ret (f result)) n) =
  mkNet (snd (r2_send c (remote n))) (sent n ++ [Sent c]).
Proof.
  unfold bind, ret. rewrite send_outcome.
  destruct (fst (r2_send c (remote n))); reflexivity.
Qed.

Lemma bind_send_value {A : Type} (c : Command) (f : Response -> A) (n : Net World) :
  fst ((result <- send c ;; ret (f result)) n) =
  match fst (r2_send c (remote n)) with
  | inr r => inr (f r)
  | inl e => inl e
  end.
Proof.
  unfold bind, ret. rewrite send_outcome.
  destruct (fst (r2_send c (remote n))); reflexivity.
Qed.

Lemma try_catch_value {S A : Type} (body : Eff S A) (handler : Error -> Eff S A)
  (s : S) :
  fst (try_catch body handler s) =
  match fst (body s) with
  | inr a => inr a
  | inl e => fst (handler e (snd (body s)))
  end.
Proof. unfold try_catch. destruct (body s) as [[e|a] s']; reflexivity. Qed.

(** [headObject] settles as the head-object command does, with the content
    length of the response. *)
Lemma headObject_value (this : Bucket) (objectKey : string) (n : Net World) :
  match fst (r2_send (HeadObjectCommand (name this) objectKey) (remote n)) with
  | inr r => exists h, fst (headObject this objectKey n) = inr h /\
                       contentLength h = ContentLength r
  | inl e => fst (headObject this objectKey n) = inl e
  end.
Proof.
  unfold headObject. rewrite bind_send_value.
  destruct (fst (r2_send _ _)) as [e|r]; [reflexivity|].
  eexists. split; reflexivity.
Qed.

(** C1, as the code has it: [upload] and [uploadStream] each add one request
    whose key is the normalised destination, which starts with no ["/"];
    [copyObject] adds one request whose key is the destination key as
    given. *)
Theorem destination_keys_sent :
  forall (this : Bucket) (contents : Contents)
         (source destination : string)
         (customMetadata : option (list (string * string)))
         (mimeType : option string) (onProgress : option (Progress -> unit))
         (n : Net World),
    (exists req,
        sent (snd (upload this contents destination customMetadata mimeType n)) =
        (sent n ++ [req])%list /\
        request_key req = Some (normalizeDestination destination)) /\
    (exists req,
        sent (snd (uploadStream this contents destination customMetadata
                                mimeType onProgress n)) =
        (sent n ++ [req])%list /\
        request_key req = Some (normalizeDestination destination)) /\
    Js.startsWith_slash (normalizeDestination destination) = false /\
    (exists req,
        sent (snd (copyObject this source destination n)) =
        (sent n ++ [req])%list /\
        request_key req = Some destination).
Proof.
  intros. split; [|split; [|split]].
  - eexists. unfold upload. rewrite bind_send_net. simpl. split; reflexivity.
  - eexists. unfold uploadStream, bind, ret. rewrite upload_done_outcome.
    destruct (fst (Upload_done _ _ _)); simpl; split; reflexivity.
  - rewrite normalizeDestination_skip. apply skip_slashes_no_slash.
  - eexists. unfold copyObject. rewrite bind_send_net. simpl. split; reflexivity.
Qed.

(** C2: [objectExists] never throws.  It returns [true] exactly when the
    head-object command is answered and the response has a content length
    that is a number other than 0; it returns [false] when the command is
    rejected, whatever the error, and when the content length is 0.  The
    same holds with [headObject] and its result in place of the command and
    its response. *)
Theorem objectExists_iff :
  forall (this : Bucket) (objectkey : string) (n : Net World),
    (exists b, fst (objectExists this objectkey n) = inr b) /\
    (fst (objectExists this objectkey n) = inr true <->
     exists r len,
       fst (r2_send (HeadObjectCommand (name this) objectkey) (remote n)) = inr r /\
       ContentLength r = Some len /\ len <> 0%Z) /\
    (forall e,
        fst (r2_send (HeadObjectCommand (name this) objectkey) (remote n)) = inl e ->
        fst (objectExists this objectkey n) = inr false) /\
    (forall r,
        fst (r2_send (HeadObjectCommand (name this) objectkey) (remote n)) = inr r ->
        ContentLength r = Some 0%Z ->
        fst (objectExists this objectkey n) = inr false) /\
    (fst (objectExists this objectkey n) = inr true <->
     exists h len,
       fst (headObject this objectkey n) = inr h /\
       contentLength h = Some len /\ len <> 0%Z) /\
    (forall e, fst (headObject this objectkey n) = inl e ->
               fst (objectExists this objectkey n) = inr false) /\
    (forall h, fst (headObject this objectkey n) = inr h ->
               contentLength h = Some 0%Z ->
               fst (objectExists this objectkey n) = inr false).
Proof.
  intros this k n.
  assert (E : fst (objectExists this k n) =
              match fst (headObject this k n) with
              | inr h => inr (Js.truthy (Js.of_number (contentLength h)))
              | inl _ => inr false
              end).
  { unfold objectExists. rewrite try_catch_value. unfold bind at 1.
    destruct (headObject this k n) as [[e|h] n']; reflexivity. }
  assert (T : fst (objectExists this k n) =
              match fst (r2_send (HeadObjectCommand (name this) k) (remote n)) with
              | inr r => inr (Js.truthy (Js.of_number (ContentLength r)))
              | inl _ => inr false
              end).
  { rewrite E. unfold headObject. rewrite bind_send_value.
    destruct (fst (r2_send _ _)); reflexivity. }
  split; [|split; [|split; [|split]]].
  - rewrite T. destruct (fst (r2_send _ _)); eexists; reflexivity.
  - rewrite T. destruct (fst (r2_send _ _)) as [e|r]; split.
    + discriminate.
    + intros (r & len & Hr & _). discriminate.
    + intro B. injection B as B.
      destruct (ContentLength r) as [len|] eqn:Hlen; [|discriminate].
      exists r, len. split; [reflexivity|]. split; [exact Hlen|].
      simpl in B. apply negb_true_iff, Z.eqb_neq in B. exact B.
    + intros (r' & len & Hr & Hlen & Hnz). injection Hr as <-.
      rewrite Hlen. simpl. f_equal. now apply negb_true_iff, Z.eqb_neq.
  - intros e He. rewrite T, He. reflexivity.
  - intros r Hr Hz. rewrite T, Hr, Hz. reflexivity.
  - rewrite E. destruct (fst (headObject this k n)) as [e|h].
    + split; [split|split].
      * discriminate.
      * intros (h & len & Hh & _). discriminate.
      * reflexivity.
      * discriminate.
    + split; [split|split].
      * intro B. injection B as B.
        destruct (contentLength h) as [len|] eqn:Hlen; [|discriminate].
        exists h, len. split; [reflexivity|]. split; [exact Hlen|].
        simpl in B. apply negb_true_iff, Z.eqb_neq in B. exact B.
      * intros (h' & len & Hh & Hlen & Hnz). injection Hh as <-.
        rewrite Hlen. simpl. f_equal. now apply negb_true_iff, Z.eqb_neq.
      * discriminate.
      * intros h' Hh Hz. injection Hh as <-. rewrite Hz. reflexivity.
Qed.

(** C3: [exists] never throws; it returns [false] when the head-bucket
    command is rejected, whatever the error, and [true] exactly when the
    response has the status code 200. *)
Theorem exists_never_throws :
  forall (this : Bucket) (n : Net World),
    (exists b, fst (exists_ this n) = inr b) /\
    (forall e, fst (r2_send (HeadBucketCommand (name this)) (remote n)) = inl e ->
               fst (exists_ this n) = inr false) /\
    (fst (exists_ this n) = inr true <->
     exists r, fst (r2_send (HeadBucketCommand (name this)) (remote n)) = inr r /\
               httpStatusCode r = Some 200%Z).
Proof.
  intros this n.
  assert (E : fst (exists_ this n) =
              match fst (r2_send (HeadBucketCommand (name this)) (remote n)) with
              | inr r => inr (Js.strict_eq_number (httpStatusCode r) 200)
              | inl _ => inr false
              end).
  { unfold exists_. rewrite try_catch_value, bind_send_value.
    destruct (fst (r2_send _ _)); reflexivity. }
  rewrite E. destruct (fst (r2_send _ _)) as [e|r].
  - split; [now exists false|]. split; [|split].
    + reflexivity.
    + discriminate.
    + intros (r & Hr & _). discriminate.
  - split; [eexists; reflexivity|]. split; [|split].
    + discriminate.
    + intro T. injection T as T. exists r. split; [reflexivity|].
      destruct (httpStatusCode r) as [c|]; [|discriminate].
      simpl in T. apply Z.eqb_eq in T. now subst c.
    + intros (r' & Hr & Hc). injection Hr as <-. rewrite Hc. reflexivity.
Qed.

(** The value [deleteObject] returns for each status code. *)
Lemma deleteObject_value (this : Bucket) (objectKey : string) (n : Net World) :
  fst (deleteObject this objectKey n) =
  match fst (r2_send (DeleteObjectCommand (name this) objectKey) (remote n)) with
  | inr r =>
      inr (match httpStatusCode r with
           | None => JsUndefined
           | Some c =>
               if (c =? 0)%Z then JsNumber c
               else JsBoolean ((200 <=? c)%Z && (c <? 300)%Z)
           end)
  | inl e => inl e
  end.
Proof.
  unfold deleteObject. rewrite bind_send_value.
  destruct (fst (r2_send _ _)) as [e|r]; [reflexivity|].
  f_equal. destruct (httpStatusCode r) as [c|]; [|reflexivity].
  cbv beta iota zeta
      delta [Js.and_ Js.ge Js.lt Js.of_number Js.to_number Js.truthy].
  destruct (c =? 0)%Z eqn:E0; simpl; rewrite ?E0; simpl; [reflexivity|].
  destruct (200 <=? c)%Z; reflexivity.
Qed.

(** C7: when the delete command resolves with a response, [deleteObject]
    returns a value, and that value is [true] exactly when the response has a
    status code [c] with [200 <= c < 300]. *)
Theorem deleteObject_true_iff :
  forall (this : Bucket) (objectKey : string) (n : Net World) (r : Response),
    fst (r2_send (DeleteObjectCommand (name this) objectKey) (remote n)) = inr r ->
    exists v,
      fst (deleteObject this objectKey n) = inr v /\
      (v = JsBoolean true <->
       exists c, httpStatusCode r = Some c /\ (200 <= c < 300)%Z).
Proof.
  intros this k n r Hr. rewrite deleteObject_value, Hr.
  eexists. split; [reflexivity|].
  destruct (httpStatusCode r) as [c|].
  - destruct (Z.eqb_spec c 0) as [->|Hc].
    + split; [discriminate|]. intros (c & Hc & Hrange).
      injection Hc as <-. lia.
    + split.
      * intro T. injection T as T. apply andb_true_iff in T.
        destruct T as [T1 T2]. apply Z.leb_le in T1. apply Z.ltb_lt in T2.
        exists c. split; [reflexivity | lia].
      * intros (c' & Hc' & Hrange). injection Hc' as <-. f_equal.
        apply andb_true_iff. split; [apply Z.leb_le | apply Z.ltb_lt]; lia.
  - split; [discriminate|]. intros (c & Hc & _). discriminate.
Qed.

Lemma tags_query_settles (c : Command) (n : Net World) :
  tags_settle
    (fst (r2_send c (remote n)))
    (fst (try_catch (result <- send c ;; ret (Js.or_empty (TagSet result)))
                    catch_no_tag_set n)).
Proof.
  rewrite try_catch_value, bind_send_value.
  destruct (fst (r2_send c (remote n))) as [e|r].
  - unfold catch_no_tag_set.
    destruct (String.eqb_spec (error_name e) "NoSuchTagSet") as [E|E].
    + now apply tags_not_configured.
    + now apply tags_failure.
  - destruct (TagSet r) as [tags|] eqn:E; simpl.
    + now apply tags_returned.
    + now apply tags_absent.
Qed.

(** C8, as the code has it: [getBucketTags] and [getObjectTags] return the
    tag set of a successful response, the empty sequence when the response
    has none, the empty sequence when the remote rejects with the error named
    [NoSuchTagSet], and rethrow any other error as it is. *)
Theorem get_tags_settle :
  forall (this : Bucket) (objectKey : string) (n : Net World),
    tags_settle
      (fst (r2_send (GetBucketTaggingCommand (name this)) (remote n)))
      (fst (getBucketTags this n)) /\
    tags_settle
      (fst (r2_send (GetObjectTaggingCommand (name this) objectKey) (remote n)))
      (fst (getObjectTags this objectKey n)).
Proof.
  intros. split; apply tags_query_settles.
Qed.

(** C9: [getCors] settles as [getCorsPolicies] and [deleteFile] as
    [deleteObject], with the same result and the same requests, and
    [getPublicUrl] is the first element of [getPublicUrls], [undefined] when
    there is none. *)
Theorem deprecated_aliases :
  forall (this : Bucket) (key : string) (n : Net World),
    getCors this n = getCorsPolicies this n /\
    deleteFile this key n = deleteObject this key n /\
    getPublicUrl this = hd_error (getPublicUrls this).
Proof.
  intros this key n. split; [|split].
  - apply bind_ret_same.
  - apply bind_ret_same.
  - apply getPublicUrl_head.
Qed.

End RemoteFacts.

(** ** The methods on concrete inputs *)

Example registering_twice_keeps_one :
  @getPublicUrls
    (@provide_all sample_urls
       [inl "https://cdn.x/a"; inr ["https://cdn.x/b"; "https://img.y:8443/p?q=1#f"];
        inl "not a url"; inl "https://cdn.x/b"]
       sample_bucket) =
  ["https://cdn.x"; "https://img.y:8443"].
Proof. reflexivity. Qed.

Example array_form_keeps_what_came_before_the_throw :
  @provideBucketPublicUrl sample_urls
    (inr ["https://cdn.x/a"; "not a url"; "https://img.y:8443/p?q=1#f"])
    sample_bucket =
  (inl invalid_url, push_public_url "https://cdn.x" sample_bucket).
Proof. reflexivity. Qed.

(** C10 at ["not a url"]. *)
Lemma provideBucketPublicUrl_unparseable_witness :
  @provideBucketPublicUrl sample_urls (inl "not a url") sample_bucket =
  (inl invalid_url, sample_bucket) /\
  getPublicUrls (snd (@provideBucketPublicUrl sample_urls (inl "not a url")
                                              sample_bucket)) =
  getPublicUrls sample_bucket.
Proof.
  apply (@provideBucketPublicUrl_unparseable sample_urls "not a url" sample_bucket).
  reflexivity.
Defined.

(** C7 at a response with the status code 204. *)
Lemma deleteObject_true_iff_witness :
  exists v,
    fst (@deleteObject _ scripted_client sample_bucket "a.txt"
                       (fresh [inr (status_only (Some 204%Z))])) = inr v /\
    (v = JsBoolean true <->
     exists c, httpStatusCode (status_only (Some 204%Z)) = Some c /\
               (200 <= c < 300)%Z).
Proof.
  apply (@deleteObject_true_iff _ scripted_client sample_bucket "a.txt"
           (fresh [inr (status_only (Some 204%Z))]) (status_only (Some 204%Z))).
  reflexivity.
Defined.

Example deleteObject_without_status :
  fst (@deleteObject _ scripted_client sample_bucket "a.txt"
                     (fresh [inr (status_only None)])) = inr JsUndefined.
Proof. reflexivity. Qed.

Example objectExists_empty_object :
  fst (@objectExists _ scripted_client sample_bucket "empty.txt"
                     (fresh [inr (head_ok 0)])) = inr false.
Proof. reflexivity. Qed.

Example objectExists_non_empty_object :
  fst (@objectExists _ scripted_client sample_bucket "a.txt"
                     (fresh [inr (head_ok 12)])) = inr true.
Proof. reflexivity. Qed.

Example exists_no_content_status :
  fst (@exists_ _ scripted_client sample_bucket
                (fresh [inr (status_only (Some 204%Z))])) = inr false.
Proof. reflexivity. Qed.

Example upload_sends_normalised_key :
  map request_key
      (sent (snd (@upload _ scripted_client sample_bucket (TextContents "hi")
                          "//docs/a.txt" None None
                          (fresh [inr (status_only (Some 200%Z))])))) =
  [Some "docs/a.txt"].
Proof. reflexivity. Qed.

(** C1 fails for [copyObject]: the destination key ["/b"] is sent with its
    leading ["/"], while its normalisation is ["b"]. *)
Lemma copyObject_sends_key_as_given :
  map request_key
      (sent (snd (@copyObject _ scripted_client sample_bucket "a" "/b"
                              (fresh [inr (status_only (Some 200%Z))])))) =
  [Some "/b"] /\
  normalizeDestination "/b" = "b" /\
  Some "/b" <> Some (normalizeDestination "/b").
Proof.
  split; [reflexivity|]. split; [reflexivity|]. discriminate.
Qed.

(** C8 fails as an equivalence: a successful response whose tag set is empty
    makes [getObjectTags] return the empty sequence, and the remote reported
    no error. *)
Lemma getObjectTags_empty_without_error :
  fst (@getObjectTags _ scripted_client sample_bucket "a.txt"
                      (fresh [inr (tags_ok (Some []))])) = inr [] /\
  ~ (exists e : Error,
        fst (@r2_send _ scripted_client
                      (GetObjectTaggingCommand (name sample_bucket) "a.txt")
                      (remote (fresh [inr (tags_ok (Some []))]))) = inl e /\
        error_name e = "NoSuchTagSet").
Proof.
  split; [reflexivity|].
  intros (e & He & _). discriminate.
Qed.

(** * Further properties of the class *)

(** ** Normalisation of destinations *)

Lemma skip_slashes_prefix (n : nat) (k : string) :
  Js.skip_slashes (Js.slashes n ++ k) = Js.skip_slashes k.
Proof. induction n as [|n IH]; simpl; auto. Qed.

(** X1: destinations that differ only in the number of ["/"] in front have
    the same normalisation. *)
Theorem normalizeDestination_ignores_leading_slashes :
  forall (n : nat) (k : string),
    normalizeDestination (Js.slashes n ++ k) = normalizeDestination k.
Proof.
  intros n k. rewrite !normalizeDestination_skip. apply skip_slashes_prefix.
Qed.

(** X2: normalisation leaves a destination as it is exactly when the
    destination does not start with ["/"]; slashes further in are kept. *)
Theorem normalizeDestination_fixed_iff :
  forall k : string,
    normalizeDestination k = k <-> Js.startsWith_slash k = false.
Proof.
  intro k. split.
  - intro E. rewrite <- E, normalizeDestination_skip.
    apply skip_slashes_no_slash.
  - apply normalizeDestination_fixed.
Qed.

(** ** Registration of public URLs *)

Lemma append_new_keeps (os acc : list string) (x : string) :
  In x acc -> In x (append_new acc os).
Proof.
  unfold append_new. revert acc.
  induction os as [|o os IH]; intros acc Hx; simpl; auto.
  apply IH. destruct (Js.includes acc o); simpl; auto.
  apply in_or_app. now left.
Qed.

Lemma append_new_holds (os acc : list string) (o : string) :
  In o os -> In o (append_new acc os).
Proof.
  revert acc. induction os as [|o' os IH]; intros acc Ho; [contradiction|].
  destruct Ho as [->|Ho].
  - change (append_new acc (o :: os))
      with (append_new (if negb (Js.includes acc o) then (acc ++ [o])%list else acc) os).
    apply append_new_keeps.
    destruct (Js.includes acc o) eqn:E; simpl.
    + now apply includes_In.
    + apply in_or_app. right. now left.
  - apply (IH _ Ho).
Qed.

Lemma append_new_nothing (os acc : list string) :
  (forall o, In o os -> In o acc) -> append_new acc os = acc.
Proof.
  unfold append_new. induction os as [|o os IH]; intro Hin; simpl; auto.
  assert (E : Js.includes acc o = true) by (apply includes_In, Hin; now left).
  rewrite E. simpl. apply IH. intros x Hx. apply Hin. now right.
Qed.

Lemma append_new_twice (os acc : list string) :
  append_new (append_new acc os) os = append_new acc os.
Proof.
  apply append_new_nothing. intros o Ho. now apply append_new_holds.
Qed.

Section Registration.

Context `{UrlApi}.

Lemma provide_string_ok (url origin : string) (this : Bucket) :
  url_origin url = Some origin ->
  provideBucketPublicUrl_string url this =
  (inr tt, snd (provideBucketPublicUrl_string url this)).
Proof.
  intro E. pose proof (provide_string_returns url origin this E) as R.
  destruct (provideBucketPublicUrl_string url this) as [o s].
  simpl in *. now subst o.
Qed.

(** Whether a call throws depends on its inputs only. *)
Lemma provide_value (call : string + list string) (this that : Bucket) :
  fst (provideBucketPublicUrl call this) = fst (provideBucketPublicUrl call that).
Proof.
  destruct call as [url|urls]; simpl.
  - destruct (url_origin url) as [o|] eqn:E.
    + now rewrite !(provide_string_returns url o _ E).
    + now rewrite !provide_string_throws by exact E.
  - revert this that. induction urls as [|url urls IH]; intros this that; auto.
    simpl. unfold bind.
    destruct (url_origin url) as [o|] eqn:E.
    + rewrite (provide_string_ok url o this E), (provide_string_ok url o that E).
      apply IH.
    + now rewrite !provide_string_throws by exact E.
Qed.

(** X3: a call, whether it returns or throws, only appends: the array after
    it is the array before it followed by what was added, and the name, the
    endpoint and the URI of the bucket are as before. *)
Theorem provideBucketPublicUrl_appends :
  forall (call : string + list string) (this : Bucket),
    let after := snd (provideBucketPublicUrl call this) in
    (exists added, getPublicUrls after = (getPublicUrls this ++ added)%list) /\
    getBucketName after = getBucketName this /\
    getUri after = getUri this /\
    endpoint after = endpoint this.
Proof.
  intros call this after. unfold after. rewrite provide_state.
  unfold getPublicUrls, getBucketName, getUri. simpl.
  split; [|auto]. rewrite append_new_first_occurrences. eexists. reflexivity.
Qed.

(** X4: making the same call again changes nothing: it settles as the first
    time and leaves the bucket as the first call left it. *)
Theorem provideBucketPublicUrl_again :
  forall (call : string + list string) (this : Bucket),
    provideBucketPublicUrl call (snd (provideBucketPublicUrl call this)) =
    provideBucketPublicUrl call this.
Proof.
  intros call this.
  rewrite (surjective_pairing (provideBucketPublicUrl call (snd _))).
  rewrite (surjective_pairing (provideBucketPublicUrl call this)) at 3.
  f_equal.
  - apply provide_value.
  - rewrite !provide_state. simpl. now rewrite append_new_twice.
Qed.

(** X5: a call keeps an array without duplicates without duplicates, from
    any such state and also when it throws. *)
Theorem provideBucketPublicUrl_keeps_NoDup :
  forall (call : string + list string) (this : Bucket),
    NoDup (getPublicUrls this) ->
    NoDup (getPublicUrls (snd (provideBucketPublicUrl call this))).
Proof.
  intros call this Hnd. rewrite provide_state. unfold getPublicUrls in *. simpl.
  rewrite append_new_first_occurrences. apply NoDup_app.
  - exact Hnd.
  - apply NoDup_filter_string, first_occurrences_NoDup.
  - intros a Ha Hf. apply filter_In in Hf. destruct Hf as [_ Hf].
    apply includes_In in Ha. now rewrite Ha in Hf.
Qed.

(** X6: once a public URL is registered, [getPublicUrl] keeps returning the
    same one, whatever is registered later. *)
Theorem getPublicUrl_stable :
  forall (calls : list (string + list string)) (this : Bucket) (first : string),
    getPublicUrl this = Some first ->
    getPublicUrl (provide_all calls this) = Some first.
Proof.
  intros calls this first. rewrite !getPublicUrl_head. unfold getPublicUrls.
  rewrite provide_all_urls, append_new_first_occurrences.
  destruct (bucketPublicUrls this); [discriminate|auto].
Qed.

(** X7: the array form stops at the first element that is not a URL: it
    throws there, what came before is registered as by the array of those
    elements alone, and what comes after is not looked at. *)
Theorem provideBucketPublicUrl_array_stops :
  forall (before after : list string) (bad : string) (this : Bucket),
    Forall (fun url => url_origin url <> None) before ->
    url_origin bad = None ->
    provideBucketPublicUrl (inr (before ++ bad :: after)%list) this =
    (inl invalid_url, snd (provideBucketPublicUrl (inr before) this)).
Proof.
  intros before after bad this Hok Hbad. simpl. revert this.
  induction Hok as [|url before Hurl Hok IH]; intro this; simpl.
  - unfold bind. now rewrite provide_string_throws by exact Hbad.
  - destruct (url_origin url) as [o|] eqn:E; [|contradiction].
    unfold bind. rewrite (provide_string_ok url o this E). apply IH.
Qed.

(** X8: when every element is a URL, the array form returns normally and
    leaves the bucket as the calls on the elements, one by one, leave it. *)
Theorem provideBucketPublicUrl_array_as_calls :
  forall (urls : list string) (this : Bucket),
    Forall (fun url => url_origin url <> None) urls ->
    provideBucketPublicUrl (inr urls) this =
    (inr tt, provide_all (map inl urls) this).
Proof.
  intros urls this Hok. simpl. revert this.
  induction Hok as [|url urls Hurl Hok IH]; intro this; simpl.
  - reflexivity.
  - destruct (url_origin url) as [o|] eqn:E; [|contradiction].
    unfold bind. rewrite (provide_string_ok url o this E). apply IH.
Qed.

(** X9: a bucket the constructor returns has the name it was given, the URI
    made of the origin of the endpoint, ["/"] and the name, and no public
    URL: [getPublicUrl] is [undefined] and an object has no public URLs. *)
Theorem constructor_bucket :
  forall (bucketName endpointUrl objectKey : string) (this : Bucket),
    constructor bucketName endpointUrl = inr this ->
    getBucketName this = bucketName /\
    url_origin endpointUrl = Some (endpoint this) /\
    getUri this = endpoint this ++ "/" ++ bucketName /\
    getPublicUrls this = [] /\
    getPublicUrl this = None /\
    getObjectPublicUrls this objectKey = [].
Proof.
  intros bucketName endpointUrl objectKey this E.
  apply constructor_fresh in E. destruct E as (origin & Eo & ->).
  repeat split; auto.
Qed.

End Registration.

(** ** Results and errors of the remote methods *)

Lemma generateObjectPublicUrls_same (this : Bucket) (objectKey : string) :
  generateObjectPublicUrls this objectKey = getObjectPublicUrls this objectKey.
Proof.
  unfold generateObjectPublicUrls, getObjectPublicUrls.
  destruct (bucketPublicUrls this); reflexivity.
Qed.

Lemma generateObjectPublicUrl_head (this : Bucket) (objectKey : string) :
  generateObjectPublicUrl this objectKey =
  hd_error (getObjectPublicUrls this objectKey).
Proof.
  unfold generateObjectPublicUrl, getObjectPublicUrls.
  destruct (bucketPublicUrls this); reflexivity.
Qed.

Lemma or_string_not_empty (s : option string) (dflt : string) :
  dflt <> "" -> Js.or_string s dflt <> "".
Proof. intro Hd. destruct s as [[|c r]|]; simpl; auto. discriminate. Qed.

Lemma try_catch_net {S A : Type} (body : Eff S A) (handler : Error -> Eff S A)
  (s : S) :
  (forall e s', snd (handler e s') = s') ->
  snd (try_catch body handler s) = snd (body s).
Proof.
  intro Hh. unfold try_catch. destruct (body s) as [[e|a] s']; simpl; auto.
Qed.

Lemma bind_ret_net {S A B : Type} (m : Eff S A) (f : A -> B) (s : S) :
  snd ((x <- m ;; ret (f x)) s) = snd (m s).
Proof. unfold bind, ret. destruct (m s) as [[e|a] s']; reflexivity. Qed.

Lemma bind_ret_value {S A B : Type} (m : Eff S A) (f : A -> B) (s : S) :
  fst ((x <- m ;; ret (f x)) s) =
  match fst (m s) with
  | inr a => inr (f a)
  | inl e => inl e
  end.
Proof. unfold bind, ret. destruct (m s) as [[e|a] s']; reflexivity. Qed.

Section RemoteResults.

Context {World : Type} `{S3Client World}.

Lemma catch_no_tag_set_net (e : Error) (n : Net World) :
  snd (catch_no_tag_set e n) = n.
Proof.
  unfold catch_no_tag_set.
  destruct (String.eqb (error_name e) "NoSuchTagSet"); reflexivity.
Qed.

Lemma upload_done_value {A : Type} (params : PutObject.Input)
  (listener : option (Progress -> unit)) (f : Response -> A) (n : Net World) :
  fst ((result <- upload_done params listener ;; ret (f result)) n) =
  match fst (Upload_done params listener (remote n)) with
  | inr r => inr (f r)
  | inl e => inl e
  end.
Proof.
  rewrite bind_ret_value, upload_done_outcome. reflexivity.
Qed.

Lemma uploadStream_unfold (this : Bucket) (contents : Contents)
  (destination : string) (customMetadata : option (list (string * string)))
  (mimeType : option string) (onProgress : option (Progress -> unit)) :
  uploadStream this contents destination customMetadata mimeType onProgress =
  (result <- upload_done
               (put_params this contents (normalizeDestination destination)
                           customMetadata mimeType) onProgress ;;
   ret (upload_response this (normalizeDestination destination) result)).
Proof. unfold uploadStream. destruct onProgress; reflexivity. Qed.

(** X10: [headObject], [deleteObject], [copyObject], [upload] and
    [uploadStream] throw exactly when their request is rejected, and throw
    the error of the rejection as it is. *)
Theorem remote_errors_propagate :
  forall (this : Bucket) (contents : Contents) (key source destination : string)
         (customMetadata : option (list (string * string)))
         (mimeType : option string) (onProgress : option (Progress -> unit))
         (n : Net World) (e : Error),
    (fst (headObject this key n) = inl e <->
     fst (r2_send (HeadObjectCommand (name this) key) (remote n)) = inl e) /\
    (fst (deleteObject this key n) = inl e <->
     fst (r2_send (DeleteObjectCommand (name this) key) (remote n)) = inl e) /\
    (fst (copyObject this source destination n) = inl e <->
     fst (r2_send (CopyObjectCommand (name this) source destination) (remote n))
     = inl e) /\
    (fst (upload this contents destination customMetadata mimeType n) = inl e <->
     fst (r2_send
            (PutObjectCommand
               (put_params this contents (normalizeDestination destination)
                           customMetadata mimeType)) (remote n)) = inl e) /\
    (fst (uploadStream this contents destination customMetadata mimeType
                       onProgress n) = inl e <->
     fst (Upload_done
            (put_params this contents (normalizeDestination destination)
                        customMetadata mimeType) onProgress (remote n)) = inl e).
Proof.
  intros. split; [|split; [|split; [|split]]].
  - unfold headObject. rewrite bind_send_value.
    destruct (fst (r2_send _ _)); split; congruence.
  - unfold deleteObject. rewrite bind_send_value.
    destruct (fst (r2_send _ _)); split; congruence.
  - unfold copyObject. rewrite bind_send_value.
    destruct (fst (r2_send _ _)); split; congruence.
  - unfold upload. rewrite bind_send_value.
    destruct (fst (r2_send _ _)); split; congruence.
  - rewrite uploadStream_unfold, upload_done_value.
    destruct (fst (Upload_done _ _ _)); split; congruence.
Qed.

(** X11: [getCorsPolicies] never throws.  It returns the empty array when
    the request is rejected and when the response has no rules; otherwise it
    returns one policy per rule, in the order of the rules, each with the
    six fields of its rule. *)
Theorem getCorsPolicies_never_throws :
  forall (this : Bucket) (n : Net World),
    exists policies,
      fst (getCorsPolicies this n) = inr policies /\
      match fst (r2_send (GetBucketCorsCommand (name this)) (remote n)) with
      | inl _ => policies = []
      | inr r =>
          match CORSRules r with
          | None => policies = []
          | Some rules =>
              length policies = length rules /\
              forall i rule,
                nth_error rules i = Some rule ->
                exists policy,
                  nth_error policies i = Some policy /\
                  allowedHeaders policy = AllowedHeaders rule /\
                  allowedMethods policy = AllowedMethods rule /\
                  allowedOrigins policy = AllowedOrigins rule /\
                  exposeHeaders policy = ExposeHeaders rule /\
                  id policy = ID rule /\
                  maxAgeSeconds policy = MaxAgeSeconds rule
          end
      end.
Proof.
  intros this n. unfold getCorsPolicies.
  rewrite try_catch_value, bind_send_value.
  destruct (fst (r2_send _ _)) as [e|r].
  - exists []. split; reflexivity.
  - eexists. split; [reflexivity|].
    destruct (CORSRules r) as [rules|]; simpl; [|reflexivity].
    split; [apply length_map|].
    intros i rule Hi. exists (cors_policy_of rule).
    rewrite nth_error_map, Hi. simpl. repeat split.
Qed.

(** X12: a call of [exists], [getCorsPolicies], [getCors], [deleteObject],
    [deleteFile], [headObject], [objectExists], [getBucketTags] or
    [getObjectTags] sends one command and no more, whether it is answered or
    rejected, with the name of the bucket and the key as given. *)
Theorem one_request_per_call :
  forall (this : Bucket) (key : string) (n : Net World),
    let sent_after {A : Type} (m : Async World A) := sent (snd (m n)) in
    sent_after (exists_ this) =
      (sent n ++ [Sent (HeadBucketCommand (name this))])%list /\
    sent_after (getCorsPolicies this) =
      (sent n ++ [Sent (GetBucketCorsCommand (name this))])%list /\
    sent_after (getCors this) =
      (sent n ++ [Sent (GetBucketCorsCommand (name this))])%list /\
    sent_after (deleteObject this key) =
      (sent n ++ [Sent (DeleteObjectCommand (name this) key)])%list /\
    sent_after (deleteFile this key) =
      (sent n ++ [Sent (DeleteObjectCommand (name this) key)])%list /\
    sent_after (headObject this key) =
      (sent n ++ [Sent (HeadObjectCommand (name this) key)])%list /\
    sent_after (objectExists this key) =
      (sent n ++ [Sent (HeadObjectCommand (name this) key)])%list /\
    sent_after (getBucketTags this) =
      (sent n ++ [Sent (GetBucketTaggingCommand (name this))])%list /\
    sent_after (getObjectTags this key) =
      (sent n ++ [Sent (GetObjectTaggingCommand (name this) key)])%list.
Proof.
  intros this key n sent_after. unfold sent_after.
  assert (Hcors : sent (snd (getCorsPolicies this n)) =
                  (sent n ++ [Sent (GetBucketCorsCommand (name this))])%list).
  { unfold getCorsPolicies. rewrite try_catch_net by reflexivity.
    now rewrite bind_send_net. }
  assert (Hdel : sent (snd (deleteObject this key n)) =
                 (sent n ++ [Sent (DeleteObjectCommand (name this) key)])%list).
  { unfold deleteObject. now rewrite bind_send_net. }
  assert (Hhead : sent (snd (headObject this key n)) =
                  (sent n ++ [Sent (HeadObjectCommand (name this) key)])%list).
  { unfold headObject. now rewrite bind_send_net. }
  repeat match goal with |- _ /\ _ => split end.
  - unfold exists_. rewrite try_catch_net by reflexivity.
    now rewrite bind_send_net.
  - exact Hcors.
  - unfold getCors. now rewrite bind_ret_same.
  - exact Hdel.
  - unfold deleteFile. now rewrite bind_ret_same.
  - exact Hhead.
  - unfold objectExists. rewrite try_catch_net by reflexivity.
    now rewrite bind_ret_net.
  - unfold getBucketTags. rewrite try_catch_net by apply catch_no_tag_set_net.
    now rewrite bind_send_net.
  - unfold getObjectTags. rewrite try_catch_net by apply catch_no_tag_set_net.
    now rewrite bind_send_net.
Qed.

(** X13: the command [upload] sends carries the name of the bucket, the
    contents and the metadata as given, and a content type that is never
    empty: the given one, or ["application/octet-stream"] when none or the
    empty string is given. *)
Theorem upload_content_type :
  forall (this : Bucket) (contents : Contents) (destination : string)
         (customMetadata : option (list (string * string)))
         (mimeType : option string) (n : Net World),
    exists input,
      sent (snd (upload this contents destination customMetadata mimeType n)) =
      (sent n ++ [Sent (PutObjectCommand input)])%list /\
      PutObject.Bucket input = name this /\
      PutObject.Body input = contents /\
      PutObject.Metadata input = customMetadata /\
      PutObject.ContentType input <> "" /\
      (forall given, mimeType = Some given -> given <> "" ->
                     PutObject.ContentType input = given) /\
      (mimeType = None \/ mimeType = Some "" ->
       PutObject.ContentType input = "application/octet-stream").
Proof.
  intros. eexists. unfold upload. rewrite bind_send_net. simpl.
  split; [reflexivity|]. do 3 (split; [reflexivity|]).
  split; [apply or_string_not_empty; discriminate|]. split.
  - intros given -> Hne. destruct given; [contradiction|reflexivity].
  - intros [->| ->]; reflexivity.
Qed.

End RemoteResults.

Section UploadResults.

Context {World : Type} `{S3Client World}.

Lemma upload_response_shape (this : Bucket) (destination : string) (r : Response) :
  let res := upload_response this (normalizeDestination destination) r in
  objectKey res = normalizeDestination destination /\
  Js.startsWith_slash (objectKey res) = false /\
  upload_uri res = getUri this ++ "/" ++ objectKey res /\
  publicUrls res = getObjectPublicUrls this (objectKey res) /\
  publicUrl res = hd_error (publicUrls res) /\
  etag res = ETag r /\
  versionId res = VersionId r.
Proof.
  simpl. split; [reflexivity|]. split.
  - rewrite normalizeDestination_skip. apply skip_slashes_no_slash.
  - split; [reflexivity|]. split; [apply generateObjectPublicUrls_same|].
    split; [|split; reflexivity].
    rewrite generateObjectPublicUrls_same. apply generateObjectPublicUrl_head.
Qed.

(** X14: what [upload] resolves with: the object key is the normalised
    destination and starts with no ["/"]; the URI is the URI of the bucket,
    ["/"] and that key; the public URLs are those [getObjectPublicUrls]
    gives for that key, and [publicUrl] is the first of them, [null] when
    there is none; the entity tag and the version are those of the
    response. *)
Theorem upload_result :
  forall (this : Bucket) (contents : Contents) (destination : string)
         (customMetadata : option (list (string * string)))
         (mimeType : option string) (n : Net World) (res : UploadFileResponse),
    fst (upload this contents destination customMetadata mimeType n) = inr res ->
    objectKey res = normalizeDestination destination /\
    Js.startsWith_slash (objectKey res) = false /\
    upload_uri res = getUri this ++ "/" ++ objectKey res /\
    publicUrls res = getObjectPublicUrls this (objectKey res) /\
    publicUrl res = hd_error (publicUrls res) /\
    exists r,
      fst (r2_send
             (PutObjectCommand
                (put_params this contents (normalizeDestination destination)
                            customMetadata mimeType)) (remote n)) = inr r /\
      etag res = ETag r /\ versionId res = VersionId r.
Proof.
  intros this contents destination customMetadata mimeType n res.
  unfold upload. rewrite bind_send_value.
  destruct (fst (r2_send _ _)) as [e|r]; [discriminate|].
  intro E. injection E as <-.
  destruct (upload_response_shape this destination r)
    as (K & S & U & P & P1 & T & V).
  repeat (split; [assumption|]). exists r. auto.
Qed.

(** X15: [uploadStream] resolves with a result of the same make, built from
    the response of [Upload.done]. *)
Theorem uploadStream_result :
  forall (this : Bucket) (contents : Contents) (destination : string)
         (customMetadata : option (list (string * string)))
         (mimeType : option string) (onProgress : option (Progress -> unit))
         (n : Net World) (res : UploadFileResponse),
    fst (uploadStream this contents destination customMetadata mimeType
                      onProgress n) = inr res ->
    objectKey res = normalizeDestination destination /\
    Js.startsWith_slash (objectKey res) = false /\
    upload_uri res = getUri this ++ "/" ++ objectKey res /\
    publicUrls res = getObjectPublicUrls this (objectKey res) /\
    publicUrl res = hd_error (publicUrls res) /\
    exists r,
      fst (Upload_done
             (put_params this contents (normalizeDestination destination)
                         customMetadata mimeType) onProgress (remote n)) = inr r /\
      etag res = ETag r /\ versionId res = VersionId r.
Proof.
  intros this contents destination customMetadata mimeType onProgress n res.
  rewrite uploadStream_unfold, upload_done_value.
  destruct (fst (Upload_done _ _ _)) as [e|r]; [discriminate|].
  intro E. injection E as <-.
  destruct (upload_response_shape this destination r)
    as (K & S & U & P & P1 & T & V).
  repeat (split; [assumption|]). exists r. auto.
Qed.

(** X16: when the delete command is answered, what [deleteObject] returns is
    truthy exactly for a status code [c] with [200 <= c < 300]; it is
    [undefined] when the response has no status code, the number 0 for the
    status code 0, and a boolean for every other status code. *)
Theorem deleteObject_truthy :
  forall (this : Bucket) (objectKey : string) (n : Net World) (r : Response),
    fst (r2_send (DeleteObjectCommand (name this) objectKey) (remote n)) = inr r ->
    exists v,
      fst (deleteObject this objectKey n) = inr v /\
      (Js.truthy v = true <->
       exists c, httpStatusCode r = Some c /\ (200 <= c < 300)%Z) /\
      (httpStatusCode r = None -> v = JsUndefined) /\
      (httpStatusCode r = Some 0%Z -> v = JsNumber 0) /\
      (forall c, httpStatusCode r = Some c -> c <> 0%Z ->
                 v = JsBoolean ((200 <=? c)%Z && (c <? 300)%Z)).
Proof.
  intros this k n r Hr. rewrite deleteObject_value, Hr.
  eexists. split; [reflexivity|].
  destruct (httpStatusCode r) as [c|].
  - destruct (Z.eqb_spec c 0) as [->|Hc].
    + split; [split|split; [discriminate|split; [reflexivity|]]].
      * discriminate.
      * intros (c & Hc & Hrange). injection Hc as <-. lia.
      * intros c Hc Hnz. injection Hc as <-. contradiction.
    + split; [split|split; [discriminate|split]].
      * simpl. intro T. apply andb_true_iff in T. destruct T as [T1 T2].
        apply Z.leb_le in T1. apply Z.ltb_lt in T2.
        exists c. split; [reflexivity|lia].
      * intros (c' & Hc' & Hrange). injection Hc' as <-. simpl.
        apply andb_true_iff. split; [apply Z.leb_le|apply Z.ltb_lt]; lia.
      * intro Hz. injection Hz as ->. contradiction.
      * intros c' Hc' _. now injection Hc' as <-.
  - split; [split|split; [reflexivity|split; discriminate]].
    + discriminate.
    + intros (c & Hc & _). discriminate.
Qed.

End UploadResults.

(** ** The other methods *)

Section OtherResults.

Context {World : Type} `{Other.Client World}.

Lemma send_other_value {A : Type} (c : Other.Command) (f : Other.Response -> A)
  (w : World) :
  fst ((result <- send_other c ;; ret (f result)) w) =
  match fst (Other.r2_send c w) with
  | inr r => inr (f r)
  | inl e => inl e
  end.
Proof. rewrite bind_ret_value. reflexivity. Qed.

(** X17: [getRegion] rethrows a rejection as it is; when the request is
    answered it returns a region that is never the empty string: the
    location of the response, or ["auto"] when the response has none or an
    empty one. *)
Theorem getRegion_never_empty :
  forall (this : Bucket) (w : World),
    match fst (Other.r2_send (Other.GetBucketLocationCommand (name this)) w) with
    | inl e => fst (getRegion this w) = inl e
    | inr r =>
        exists region,
          fst (getRegion this w) = inr region /\
          region <> "" /\
          (forall location, Other.LocationConstraint r = Some location ->
                            location <> "" -> region = location) /\
          (Other.LocationConstraint r = None \/
           Other.LocationConstraint r = Some "" -> region = "auto")
    end.
Proof.
  intros this w. unfold getRegion. rewrite send_other_value.
  destruct (fst (Other.r2_send _ w)) as [e|r]; [reflexivity|].
  eexists. split; [reflexivity|].
  split; [apply or_string_not_empty; discriminate|]. split.
  - intros location -> Hne. destruct location; [contradiction|reflexivity].
  - intros [->| ->]; reflexivity.
Qed.

(** X18: [getEncryption] rethrows a rejection as it is, where
    [getCorsPolicies] returns the empty array; when the request is answered
    it returns the empty array if the response has no configuration or the
    configuration no rules, and otherwise one entry per rule, in order, with
    the algorithm and key of the rule's default, [undefined] when the rule
    has no default, and the rule's bucket-key flag. *)
Theorem getEncryption_rules :
  forall (this : Bucket) (w : World),
    match fst (Other.r2_send (Other.GetBucketEncryptionCommand (name this)) w) with
    | inl e => fst (getEncryption this w) = inl e
    | inr r =>
        exists rules,
          fst (getEncryption this w) = inr rules /\
          match Other.ServerSideEncryptionConfiguration r with
          | None => rules = []
          | Some configuration =>
              match Encryption.Rules configuration with
              | None => rules = []
              | Some remote_rules =>
                  length rules = length remote_rules /\
                  forall i rule,
                    nth_error remote_rules i = Some rule ->
                    exists entry,
                      nth_error rules i = Some entry /\
                      bucketKeyEnabled entry = Encryption.BucketKeyEnabled rule /\
                      match Encryption.ApplyServerSideEncryptionByDefault rule with
                      | Some d =>
                          sseAlgorithm (applyServerSideEncryptionByDefault entry)
                          = Encryption.SSEAlgorithm d /\
                          kmsMasterKeyId (applyServerSideEncryptionByDefault entry)
                          = Encryption.KMSMasterKeyID d
                      | None =>
                          applyServerSideEncryptionByDefault entry =
                          mkEncryptionDefault None None
                      end
              end
          end
    end.
Proof.
  intros this w. unfold getEncryption. rewrite send_other_value.
  destruct (fst (Other.r2_send _ w)) as [e|r]; [reflexivity|].
  eexists. split; [reflexivity|].
  destruct (Other.ServerSideEncryptionConfiguration r) as [configuration|];
    [|reflexivity].
  destruct (Encryption.Rules configuration) as [remote_rules|]; [|reflexivity].
  simpl. split; [apply length_map|].
  intros i rule Hi. exists (encryption_rule_of rule).
  rewrite nth_error_map, Hi. split; [reflexivity|]. split; [reflexivity|].
  unfold encryption_rule_of. simpl.
  destruct (Encryption.ApplyServerSideEncryptionByDefault rule); auto.
Qed.


(** X20: [setBucketTags], [deleteBucketTags], [setObjectTags] and
    [deleteObjectTags] return nothing when their command is answered,
    whatever the answer, and rethrow a rejection as it is, the one named
    [NoSuchTagSet] included. *)
Theorem tag_writes_settle :
  forall (this : Bucket) (objectKey : string) (tags : list Tag) (w : World),
    let settles (m : Eff World unit) (c : Other.Command) :=
      fst (m w) = match fst (Other.r2_send c w) with
                  | inl e => inl e
                  | inr _ => inr tt
                  end in
    settles (setBucketTags this tags)
            (Other.PutBucketTaggingCommand (name this) tags) /\
    settles (deleteBucketTags this)
            (Other.DeleteBucketTaggingCommand (name this)) /\
    settles (setObjectTags this objectKey tags)
            (Other.PutObjectTaggingCommand (name this) objectKey tags) /\
    settles (deleteObjectTags this objectKey)
            (Other.DeleteObjectTaggingCommand (name this) objectKey).
Proof.
  intros this objectKey tags w settles. unfold settles.
  unfold setBucketTags, deleteBucketTags, setObjectTags, deleteObjectTags.
  rewrite !send_other_value. repeat split.
Qed.

End OtherResults.

(** ** Uploading a local file *)

Section LocalFileResults.

Context {World : Type} `{S3Client World} {PathLike : Type} `{NodeFs PathLike}.

(** [uploadFile] in one step: the throw of [createReadStream], or the upload
    of the stream between the creation and the closing of the stream. *)
Lemma uploadFile_settles (this : Bucket) (file : PathLike)
  (destination : option string) (customMetadata : option (list (string * string)))
  (mimeType : option string) (p : Process World PathLike) :
  uploadFile this file destination customMetadata mimeType p =
  match createReadStream file with
  | inl thrown => (inl thrown, p)
  | inr fileStream =>
      (fst (upload this fileStream
                   (Js.or_string destination (basename (path_toString file)))
                   customMetadata mimeType (net p)),
       mkProcess
         (snd (upload this fileStream
                      (Js.or_string destination (basename (path_toString file)))
                      customMetadata mimeType (net p)))
         (streams p ++ [StreamCreated file; StreamClosed file]))
  end.
Proof.
  unfold uploadFile.
  destruct (createReadStream file) as [thrown|fileStream]; [reflexivity|].
  unfold try_catch, bind, fs_event, modify, on_net, ret, throw. simpl.
  destruct (upload this fileStream _ customMetadata mimeType (net p))
    as [[e|res] n']; simpl; rewrite <- app_assoc; reflexivity.
Qed.

(** X21: when [createReadStream] throws, [uploadFile] rejects with what was
    thrown and nothing is created, closed or sent.  When it returns a
    stream, [uploadFile] creates that one stream and closes it once, whether
    the upload resolves or is rejected; it settles as [upload] does on the
    stream, with the same result or the same error, and sends nothing
    else. *)
Theorem uploadFile_closes_stream :
  forall (this : Bucket) (file : PathLike) (destination : option string)
         (customMetadata : option (list (string * string)))
         (mimeType : option string) (p : Process World PathLike),
    let settled := uploadFile this file destination customMetadata mimeType p in
    match createReadStream file with
    | inl thrown => settled = (inl thrown, p)
    | inr fileStream =>
        let uploaded :=
          upload this fileStream
                 (Js.or_string destination (basename (path_toString file)))
                 customMetadata mimeType (net p) in
        fst settled = fst uploaded /\
        net (snd settled) = snd uploaded /\
        streams (snd settled) =
        (streams p ++ [StreamCreated file; StreamClosed file])%list
    end.
Proof.
  intros. unfold settled. rewrite uploadFile_settles.
  destruct (createReadStream file) as [thrown|fileStream]; [reflexivity|].
  simpl. split; [reflexivity|]. split; reflexivity.
Qed.

(** X22: when [createReadStream] returns a stream, [uploadFile] sends one
    request, on both paths, and its key is the normalised destination, or the
    normalised base name of the file when no destination or the empty string
    is given; when [createReadStream] throws, nothing is sent. *)
Theorem uploadFile_key :
  forall (this : Bucket) (file : PathLike) (destination : option string)
         (customMetadata : option (list (string * string)))
         (mimeType : option string) (p : Process World PathLike),
    let sent_after :=
      sent (net (snd (uploadFile this file destination customMetadata
                                 mimeType p))) in
    match createReadStream file with
    | inl _ => sent_after = sent (net p)
    | inr _ =>
        exists req,
          sent_after = (sent (net p) ++ [req])%list /\
          (forall given, destination = Some given -> given <> "" ->
                         request_key req = Some (normalizeDestination given)) /\
          (destination = None \/ destination = Some "" ->
           request_key req =
           Some (normalizeDestination (basename (path_toString file))))
    end.
Proof.
  intros. unfold sent_after. rewrite uploadFile_settles.
  destruct (createReadStream file) as [thrown|fileStream]; [reflexivity|].
  simpl. unfold upload. rewrite bind_send_net. simpl.
  eexists. split; [reflexivity|]. simpl. split.
  - intros given -> Hne. destruct given; [contradiction|reflexivity].
  - intros [->| ->]; reflexivity.
Qed.

End LocalFileResults.

(** ** The further properties on concrete inputs *)

Example uploadFile_by_base_name :
  map request_key
      (sent (net (snd (@uploadFile _ scripted_client _ sample_fs sample_bucket
                                   "/tmp/photos/cat.png" None None None
                                   (mkProcess (fresh [inr (status_only (Some 200%Z))])
                                              []))))) =
  [Some "cat.png"].
Proof. reflexivity. Qed.

Example uploadFile_nul_path :
  @uploadFile _ scripted_client _ sample_fs sample_bucket nul_path None None None
              (mkProcess (fresh [inr (status_only (Some 200%Z))]) []) =
  (inl invalid_path, mkProcess (fresh [inr (status_only (Some 200%Z))]) []).
Proof. reflexivity. Qed.

Example uploadFile_rejected_upload_closes :
  streams (snd (@uploadFile _ scripted_client _ sample_fs sample_bucket
                            "notes.txt" None None None
                            (mkProcess (fresh []) []))) =
  [StreamCreated "notes.txt"; StreamClosed "notes.txt"].
Proof. reflexivity. Qed.

Example getRegion_empty_location :
  fst (@getRegion _ scripted_other_client sample_bucket
                  [inr (location_only (Some ""))]) = inr "auto".
Proof. reflexivity. Qed.

Lemma sample_public_urls_NoDup : NoDup (getPublicUrls sample_public_bucket).
Proof.
  repeat constructor; simpl; intuition discriminate.
Defined.

(** X5 at a bucket with two public URLs and a URL of the first origin. *)
Lemma provideBucketPublicUrl_keeps_NoDup_witness :
  NoDup (getPublicUrls sample_public_bucket) /\
  NoDup (getPublicUrls
           (snd (@provideBucketPublicUrl sample_urls (inl "https://cdn.x/b")
                                         sample_public_bucket))).
Proof.
  split; [exact sample_public_urls_NoDup|].
  apply (@provideBucketPublicUrl_keeps_NoDup sample_urls
           (inl "https://cdn.x/b") sample_public_bucket).
  exact sample_public_urls_NoDup.
Defined.

(** X6 at the same bucket and three more calls. *)
Lemma getPublicUrl_stable_witness :
  getPublicUrl
    (@provide_all sample_urls
       [inl "https://img.y:8443/p?q=1#f"; inl "not a url";
        inr ["https://acc.r2.cloudflarestorage.com"; "https://cdn.x/a"]]
       sample_public_bucket) = Some "https://cdn.x".
Proof.
  apply (@getPublicUrl_stable sample_urls). reflexivity.
Defined.

(** X7 at an array whose second element is not a URL. *)
Lemma provideBucketPublicUrl_array_stops_witness :
  @provideBucketPublicUrl sample_urls
    (inr (["https://cdn.x/a"] ++ "not a url" :: ["https://img.y:8443/p?q=1#f"])%list)
    sample_bucket =
  (inl invalid_url,
   snd (@provideBucketPublicUrl sample_urls (inr ["https://cdn.x/a"]) sample_bucket)).
Proof.
  apply (@provideBucketPublicUrl_array_stops sample_urls).
  - repeat constructor. simpl. discriminate.
  - reflexivity.
Defined.

(** X8 at an array of two URLs of one origin. *)
Lemma provideBucketPublicUrl_array_as_calls_witness :
  @provideBucketPublicUrl sample_urls
    (inr ["https://cdn.x/a"; "https://cdn.x/b"]) sample_bucket =
  (inr tt,
   @provide_all sample_urls (map inl ["https://cdn.x/a"; "https://cdn.x/b"])
                sample_bucket).
Proof.
  apply (@provideBucketPublicUrl_array_as_calls sample_urls).
  repeat constructor; simpl; discriminate.
Defined.

(** X9 at the sample endpoint. *)
Lemma constructor_bucket_witness :
  getBucketName sample_bucket = "photos" /\
  @url_origin sample_urls "https://acc.r2.cloudflarestorage.com" =
    Some (endpoint sample_bucket) /\
  getUri sample_bucket = endpoint sample_bucket ++ "/" ++ "photos" /\
  getPublicUrls sample_bucket = [] /\
  getPublicUrl sample_bucket = None /\
  getObjectPublicUrls sample_bucket "a.txt" = [].
Proof.
  apply (@constructor_bucket sample_urls "photos"
           "https://acc.r2.cloudflarestorage.com" "a.txt"
           sample_bucket).
  reflexivity.
Defined.

(** X14 at an upload to ["//docs/a.txt"] in a bucket with two public URLs. *)
Lemma upload_result_witness :
  let res :=
    upload_response sample_public_bucket "docs/a.txt" (head_ok 2) in
  objectKey res = normalizeDestination "//docs/a.txt" /\
  Js.startsWith_slash (objectKey res) = false /\
  upload_uri res = getUri sample_public_bucket ++ "/" ++ objectKey res /\
  publicUrls res = getObjectPublicUrls sample_public_bucket (objectKey res) /\
  publicUrl res = hd_error (publicUrls res) /\
  exists r,
    fst (@r2_send _ scripted_client
           (PutObjectCommand
              (put_params sample_public_bucket (TextContents "hi")
                          (normalizeDestination "//docs/a.txt") None None))
           (remote (fresh [inr (head_ok 2)]))) = inr r /\
    etag res = ETag r /\ versionId res = VersionId r.
Proof.
  apply (@upload_result _ scripted_client sample_public_bucket
           (TextContents "hi") "//docs/a.txt" None None
           (fresh [inr (head_ok 2)])).
  reflexivity.
Defined.

(** X15 at the same upload through [uploadStream], with no listener. *)
Lemma uploadStream_result_witness :
  let res :=
    upload_response sample_public_bucket "docs/a.txt" (head_ok 2) in
  objectKey res = normalizeDestination "//docs/a.txt" /\
  Js.startsWith_slash (objectKey res) = false /\
  upload_uri res = getUri sample_public_bucket ++ "/" ++ objectKey res /\
  publicUrls res = getObjectPublicUrls sample_public_bucket (objectKey res) /\
  publicUrl res = hd_error (publicUrls res) /\
  exists r,
    fst (@Upload_done _ scripted_client
           (put_params sample_public_bucket (TextContents "hi")
                       (normalizeDestination "//docs/a.txt") None None)
           None (remote (fresh [inr (head_ok 2)]))) = inr r /\
    etag res = ETag r /\ versionId res = VersionId r.
Proof.
  apply (@uploadStream_result _ scripted_client sample_public_bucket
           (TextContents "hi") "//docs/a.txt" None None None
           (fresh [inr (head_ok 2)])).
  reflexivity.
Defined.

Example upload_result_public_urls :
  option_map (fun res => (publicUrl res, publicUrls res))
    (match fst (@upload _ scripted_client sample_public_bucket (TextContents "hi")
                        "//docs/a.txt" None None (fresh [inr (head_ok 2)])) with
     | inr res => Some res
     | inl _ => None
     end) =
  Some (Some "https://cdn.x/docs/a.txt",
        ["https://cdn.x/docs/a.txt"; "https://img.y:8443/docs/a.txt"]).
Proof. reflexivity. Qed.

(** X16 at a response with the status code 404. *)
Lemma deleteObject_truthy_witness :
  exists v,
    fst (@deleteObject _ scripted_client sample_bucket "a.txt"
                       (fresh [inr (status_only (Some 404%Z))])) = inr v /\
    (Js.truthy v = true <->
     exists c, httpStatusCode (status_only (Some 404%Z)) = Some c /\
               (200 <= c < 300)%Z) /\
    (httpStatusCode (status_only (Some 404%Z)) = None -> v = JsUndefined) /\
    (httpStatusCode (status_only (Some 404%Z)) = Some 0%Z -> v = JsNumber 0) /\
    (forall c, httpStatusCode (status_only (Some 404%Z)) = Some c -> c <> 0%Z ->
               v = JsBoolean ((200 <=? c)%Z && (c <? 300)%Z)).
Proof.
  apply (@deleteObject_truthy _ scripted_client sample_bucket "a.txt"
           (fresh [inr (status_only (Some 404%Z))]) (status_only (Some 404%Z))).
  reflexivity.
Defined.
